(** * semverbot: branch/version inference and the JSON file updater

    A shallow embedding of [src/helpers/BranchHelper.js] and of the
    JSON file changer ([updateFiles]), with the properties of the
    specification stated and proved (or refuted) over it.

    Conventions of the embedding:
    - an [async] function is a function into [outcome]: the value the
      promise resolves to, or the way it rejects; [x ← m; k] awaits
      [m] and goes on with [k];
    - [await until(ShellHelper.exec(cmd))] is the pair [exec cmd] of
      captured lines and error, either of which may be missing;
    - JavaScript truthiness is written out wherever the code branches
      on a value. *)

From Stdlib Require Import ZArith NArith Ascii String List Lia Bool DecimalString.
From Stdlib Require Import DecimalN DecimalPos.
From stdpp Require Import base option list strings gmap.

Local Open Scope string_scope.
Local Open Scope list_scope.

(** ** Outcomes of an operation *)

(** An error object, as a failed command gives it: truthy, whatever
    its message. *)
Record error : Type := Error { error_message : string }.

(** The way a call ends.  [ExceptionError] and [SoftExit] are the two
    kinds of the reporter; [TypeError] is the runtime's own failure
    when a property of [undefined] or [null] is read. *)
Inductive outcome (A : Type) : Type :=
| Resolved (a : A)
| ExceptionError (message : string) (cause : option error)
| SoftExit (message reason : string)
| TypeError (reading : string).

Arguments Resolved {A} a.
Arguments ExceptionError {A} message cause.
Arguments SoftExit {A} message reason.
Arguments TypeError {A} reading.

Definition bind {A B} (m : outcome A) (k : A -> outcome B) : outcome B :=
  match m with
  | Resolved a => k a
  | ExceptionError msg cause => ExceptionError msg cause
  | SoftExit msg reason => SoftExit msg reason
  | TypeError r => TypeError r
  end.

#[global] Instance outcome_ret : MRet outcome := @Resolved.
#[global] Instance outcome_bind : MBind outcome :=
  fun A B k m => bind m k.

(** [Promise.all] over promises that were all started: every result
    in order, or a rejection.  When several promises reject, the one
    reported here is the first in the order of the array; the order
    in time is not modelled. *)
Fixpoint promise_all {A} (ps : list (outcome A)) : outcome (list A) :=
  match ps with
  | [] => Resolved []
  | p :: rest =>
      x ← p;
      xs ← promise_all rest;
      Resolved (x :: xs)
  end.

Definition is_fatal {A} (o : outcome A) : bool :=
  match o with
  | ExceptionError _ _ => true
  | _ => false
  end.

(** ** JavaScript odds and ends *)

Module Js.

(** [String.prototype.split] with a one-character separator: the
    pieces between the separators, never an empty array. *)
Fixpoint split (sep : ascii) (s : string) : list string :=
  match s with
  | EmptyString => [EmptyString]
  | String c r =>
      if Ascii.eqb c sep then EmptyString :: split sep r
      else match split sep r with
           | p :: ps => String c p :: ps
           | [] => [String c EmptyString]
           end
  end.

(** [arr[0]]: the first element, or [undefined] ([None]). *)
Definition first {A} (arr : list A) : option A :=
  match arr with
  | x :: _ => Some x
  | [] => None
  end.

(** Truthiness of a string: every string but the empty one. *)
Definition truthy_string (s : string) : bool :=
  match s with
  | EmptyString => false
  | String _ _ => true
  end.

(** Truthiness of a value that is either an array or [null] /
    [undefined]: an array is an object, hence truthy, also when it
    is empty. *)
Definition truthy_array {A} (v : option (list A)) : bool :=
  match v with
  | Some _ => true
  | None => false
  end.

(** Truthiness of a value that is either an object or [undefined]. *)
Definition truthy_object {A} (v : option A) : bool :=
  match v with
  | Some _ => true
  | None => false
  end.

Definition is_digit (c : ascii) : bool :=
  let n := N_of_ascii c in ((48 <=? n) && (n <=? 57))%N.

Definition digit_value (c : ascii) : N := (N_of_ascii c - 48)%N.

(** Unary plus on a string of decimal digits.  The number is the
    exact one; the number of JavaScript is a double, the same number
    up to [2^53] and the nearest double beyond.  What is proved of
    the value of a timestamp takes that bound as a hypothesis. *)
Definition number_of_digits (ds : string) : N :=
  fold_left (fun acc c => (10 * acc + digit_value c)%N)
            (list_ascii_of_string ds) 0%N.

(** The longest prefix of digits, and what follows it. *)
Fixpoint span_digits (s : string) : string * string :=
  match s with
  | String c r =>
      if is_digit c
      then let '(ds, rest) := span_digits r in (String c ds, rest)
      else (EmptyString, s)
  | EmptyString => (EmptyString, EmptyString)
  end.

(** Truthiness of a value that is a string or [null]. *)
Definition truthy_ostring (v : option string) : bool :=
  match v with
  | Some s => truthy_string s
  | None => false
  end.

(** A promise is an object: truthy, whatever it settles to. *)
Definition truthy_promise {A} (p : outcome A) : bool := true.

(** [a !== b] for a string [a] and a [b] that is a string or
    [undefined]. *)
Definition strict_neq (a : string) (b : option string) : bool :=
  match b with
  | Some b' => negb (String.eqb a b')
  | None => true
  end.

(** [arr.includes(x)] for an array of strings. *)
Definition includes (arr : list string) (x : option string) : bool :=
  match x with
  | Some s => existsb (String.eqb s) arr
  | None => false
  end.

Definition dquote : ascii := ascii_of_nat 34.

End Js.

(** ** The reporter *)

Module LogHelper.

(** Modelled from the spec: [LogHelper.throwException] is not under
    src/; the reporter raises the fatal [ExceptionError] carrying a
    message and an optional cause, and never returns. *)
Definition throwException {A} (message : string) (cause : option error)
  : outcome A :=
  ExceptionError message cause.

(** Modelled from the spec: [LogHelper.exit] is not under src/; it
    ends the run with a message and a reason, with a status that is
    not an error. *)
Definition exit {A} (message reason : string) : outcome A :=
  SoftExit message reason.

End LogHelper.

(** [chalk] only wraps its argument in terminal styling; the styling
    is left out. *)
Module chalk.
Definition underline (s : string) : string := s.
Definition underline_white (s : string) : string := s.
End chalk.

(** ** The pieces the helper is given *)

Module ShellHelper.

(** Modelled from the spec: [ShellHelper.exec] and [until] are not
    under src/.  A command gives captured stdout lines or an error;
    [until] turns the promise into the pair [[lines, err]].  No
    output is a missing ([null] / [undefined], falsy) first
    component, no error a missing second one: the helper tells
    output from no output by the truthiness of the lines
    ([if (dirty)], [if (branchNames)]), and an array is truthy. *)
Definition result : Type := option (list string) * option error.

End ShellHelper.

(** [semver.clean] and [semver.valid] of the semver package: both give
    a version string or [null]. *)
Class Semver : Type := {
  semver_clean : string -> option string;
  semver_valid : option string -> option string
}.

(** ** BranchHelper.js *)

(** A branch candidate [{ name, date }]. *)
Record candidate : Type := Candidate { name : string; date : N }.

(** [Array.prototype.sort] with the comparator
    [(a, b) => a.date - b.date]: ascending dates, equal dates in
    their original order.  The dates are exact numbers, as the
    doubles of the code are up to [2^53]. *)
Fixpoint insert_by_date (c : candidate) (l : list candidate) : list candidate :=
  match l with
  | [] => [c]
  | h :: t =>
      if (date c <=? date h)%N then c :: h :: t
      else h :: insert_by_date c t
  end.

Definition sort_by_date (l : list candidate) : list candidate :=
  foldr insert_by_date [] l.

(** [line.match('\@\{([0-9]+)\}')]: the string is compiled to the
    regular expression [@{([0-9]+)}]; the result is the first capture
    of the leftmost match, or [null]. *)
Definition match_reflog_here (s : string) : option string :=
  match s with
  | String "@" (String "{" r) =>
      match Js.span_digits r with
      | (String d ds, String "}" _) => Some (String d ds)
      | _ => None
      end
  | _ => None
  end.

Fixpoint match_reflog (s : string) : option string :=
  match match_reflog_here s with
  | Some ds => Some ds
  | None =>
      match s with
      | String _ r => match_reflog r
      | EmptyString => None
      end
  end.

(** The fixed command lines. *)
Module Command.

Definition diffQuiet : string :=
  "git diff --quiet || echo "
  +:+ String Js.dquote ("dirty" +:+ String Js.dquote EmptyString).

Definition currentBranch : string := "git rev-parse --abbrev-ref HEAD".

Definition branchesContaining (hash : string) : string :=
  "git branch --contains " +:+ hash +:+ " --format='%(refname:short)' --merged".

Definition lastSubject : string := "git log -1 --pretty=%B | cat".

Definition fetch : string := "git fetch".

Definition lastMergeParents : string :=
  "git log --merges --first-parent master -n 1 --pretty=%P".

Definition diffAgainst (branchName : string) : string :=
  "git diff " +:+ branchName +:+ " | head -1".

Definition reflogOf (branchName : string) : string :=
  "git reflog show " +:+ branchName +:+ " --pretty='%gd' --date=unix -n 1".

Definition lastTag : string := "git describe --abbrev=0".

End Command.

Section BranchHelper.

(** What the shell answers to each command. *)
Variable exec : string -> ShellHelper.result.

(** [Config.get().branches]. *)
Variable branches : list string.

Context {semver : Semver}.

Definition checkCleanliness : outcome bool :=
  let '(dirty, err) := exec Command.diffQuiet in
  if Js.truthy_object err then
    LogHelper.throwException "Could not check directory cleanliness" err
  else if Js.truthy_array dirty then
    LogHelper.throwException
      ("Directory is not clean. You must " +:+ chalk.underline "commit"
       +:+ " or " +:+ chalk.underline "discard"
       +:+ " your changes first.") None
  else Resolved true.

Definition getCurrentBranchName : outcome (option string) :=
  let '(nameLines, err) := exec Command.currentBranch in
  if negb (Js.truthy_object err) then
    match nameLines with
    | Some ls => Resolved (Js.first ls)
    | None => TypeError "0"
    end
  else LogHelper.throwException "Could not get current branch name" err.

Definition checkBranchInConfig : outcome bool :=
  currentBranchName ← getCurrentBranchName;
  if Js.includes branches currentBranchName then Resolved true
  else LogHelper.exit "Current branch is not included in config file"
                      "Skipping...".

Definition getBranchNamesFromCommitHash (hash : string)
  : outcome (list string) :=
  let '(branchNames, err) := exec (Command.branchesContaining hash) in
  match branchNames with
  | Some names => Resolved names
  | None => LogHelper.throwException "Could not find last merged branch" err
  end.

Definition fetchRemote : outcome bool :=
  let '(_, fetchedErr) := exec Command.fetch in
  if Js.truthy_object fetchedErr then
    LogHelper.throwException "Could not fetch remote branches" fetchedErr
  else Resolved true.

Definition getLastMergedBranchesNames : outcome (list string) :=
  let '(hashesLines, hashesErr) := exec Command.lastMergeParents in
  match hashesLines with
  | Some ls =>
      match Js.first ls with
      | Some line =>
          match Js.first (Js.split " " line) with
          | Some commitHash => getBranchNamesFromCommitHash commitHash
          | None => TypeError "split"
          end
      | None => TypeError "split"
      end
  | None =>
      LogHelper.throwException "Could not find last merged branch" hashesErr
  end.

Definition isBranchClean (branchName : string) : outcome bool :=
  let '(diff, err) := exec (Command.diffAgainst branchName) in
  if negb (Js.truthy_object err) then Resolved (negb (Js.truthy_array diff))
  else LogHelper.throwException "Could not get branch diff" err.

Definition getBranchPushTimestamp (branchName : string) : outcome N :=
  let '(reflogLines, err) := exec (Command.reflogOf branchName) in
  let failed :=
    LogHelper.throwException
      ("Could not get reflog for branch " +:+ branchName) err in
  match reflogLines with
  | Some ls =>
      match Js.first ls with
      | Some line =>
          match match_reflog line with
          | Some digits =>
              if Js.truthy_string digits
              then Resolved (Js.number_of_digits digits)
              else failed
          | None => failed
          end
      | None => TypeError "match"
      end
  | None => failed
  end.

(** The names that go on to the timestamp lookup.  The second
    [filter] is given the promise [isBranchClean(name)] itself as
    its verdict.  The call behind the promise has been started all
    the same and nobody awaits it: when its diff probe comes with an
    error, its fatal error is raised outside of what
    [getLastMergedPrefix] returns, and is not in this model.  What is
    proved for every shell assumes that no diff probe of a branch
    comes with an error. *)
Definition candidateNames (currentBranchName : option string)
    (mergedBranchNames : list string) : list string :=
  List.filter (fun name => Js.truthy_promise (isBranchClean name))
    (List.filter (fun name => Js.strict_neq name currentBranchName)
       mergedBranchNames).

Definition getLastMergedPrefix : outcome string :=
  currentBranchName ← getCurrentBranchName;
  mergedBranchNames ← getLastMergedBranchesNames;
  gathered ← promise_all
    (map (fun name =>
            date ← getBranchPushTimestamp name;
            Resolved (Candidate name date))
         (candidateNames currentBranchName mergedBranchNames));
  let candidateBranches := sort_by_date gathered in
  if negb (Js.truthy_array (Some candidateBranches)) then
    LogHelper.throwException
      "Could not find a suitable merged branch candidate" None
  else
    match Js.first candidateBranches with
    | None => TypeError "name"
    | Some winner =>
        let splitName := Js.split "/" (name winner) in
        match splitName with
        | prefix :: _ :: _ => Resolved prefix
        | _ =>
            LogHelper.throwException
              "Could not extract prefix from last merged branch" None
        end
    end.

Definition getLastTagVersion : outcome (option string) :=
  let '(tagLines, err) := exec Command.lastTag in
  match tagLines with
  | Some ls =>
      match Js.first ls with
      | Some tag => Resolved (semver_clean tag)
      | None => TypeError "trim"
      end
  | None => LogHelper.throwException "Could not get last tag" err
  end.

(** The body of the [forEach] of [getCommitSubjectVersion]. *)
Definition scanLine (cleanVersion : option string) (line : string)
  : option string :=
  let lineVersion := semver_clean line in
  if Js.truthy_ostring (semver_valid lineVersion) then lineVersion
  else None.

Definition getCommitSubjectVersion : outcome (option string) :=
  let '(subjectLines, err) := exec Command.lastSubject in
  match subjectLines with
  | Some ls => Resolved (fold_left scanLine (rev ls) None)
  | None => LogHelper.throwException "Could not get last commit subject" err
  end.

End BranchHelper.

(** ** A model of the semver package *)

(** The strict grammar of semver's [parse]:
    [v?MAJOR.MINOR.PATCH(-PRERELEASE)?(+BUILD)?], numeric identifiers
    without leading zeros.  The limits of the package on the length
    of the input and on the size of the numbers are left out.  The
    general theorems below hold for every [Semver]; this instance
    serves the concrete scenarios. *)
Module SemverModel.

Definition is_space (c : ascii) : bool :=
  let n := N_of_ascii c in ((n =? 32) || ((9 <=? n) && (n <=? 13)))%N.

Definition is_letter (c : ascii) : bool :=
  let n := N_of_ascii c in
  (((65 <=? n) && (n <=? 90)) || ((97 <=? n) && (n <=? 122)))%N.

Definition is_ident_char (c : ascii) : bool :=
  Js.is_digit c || is_letter c || Ascii.eqb c "-".

Definition all_chars (p : ascii -> bool) (s : string) : bool :=
  forallb p (list_ascii_of_string s).

Fixpoint drop_while (p : ascii -> bool) (s : string) : string :=
  match s with
  | String c r => if p c then drop_while p r else s
  | EmptyString => EmptyString
  end.

Definition rev_string (s : string) : string :=
  string_of_list_ascii (rev (list_ascii_of_string s)).

(** [s.trim()] *)
Definition trim (s : string) : string :=
  rev_string (drop_while is_space (rev_string (drop_while is_space s))).

(** [0|[1-9]\d*] *)
Definition numeric_identifier (s : string) : bool :=
  match s with
  | EmptyString => false
  | String "0" EmptyString => true
  | String c r => Js.is_digit c && negb (Ascii.eqb c "0")
                  && all_chars Js.is_digit r
  end.

(** [0|[1-9]\d*|\d*[a-zA-Z-][a-zA-Z0-9-]*] *)
Definition prerelease_identifier (s : string) : bool :=
  numeric_identifier s
  || (all_chars is_ident_char s
      && existsb (fun c => negb (Js.is_digit c)) (list_ascii_of_string s)).

(** [[0-9A-Za-z-]+] *)
Definition build_identifier (s : string) : bool :=
  Js.truthy_string s && all_chars is_ident_char s.

(** What precedes the first [sep], and what follows it, if any. *)
Fixpoint cut (sep : ascii) (s : string) : string * option string :=
  match s with
  | EmptyString => (EmptyString, None)
  | String c r =>
      if Ascii.eqb c sep then (EmptyString, Some r)
      else let '(a, b) := cut sep r in (String c a, b)
  end.

Definition optional (check : string -> bool) (part : option string) : bool :=
  match part with
  | Some s => forallb check (Js.split "." s)
  | None => true
  end.

(** [parse(version)], giving the [version] field of the result. *)
Definition parse (version : string) : option string :=
  let '(front, build) := cut "+" version in
  let '(core, prerelease) := cut "-" front in
  let core :=
    match core with
    | String "v" r => r
    | _ => core
    end in
  match Js.split "." core with
  | [major; minor; patch] =>
      if numeric_identifier major && numeric_identifier minor
         && numeric_identifier patch
         && optional prerelease_identifier prerelease
         && optional build_identifier build
      then Some (match prerelease with
                 | Some p => core +:+ "-" +:+ p
                 | None => core
                 end)
      else None
  | _ => None
  end.

(** [semver.clean]: trim, drop leading [=] and [v], parse. *)
Definition clean (version : string) : option string :=
  parse (drop_while (fun c => Ascii.eqb c "=" || Ascii.eqb c "v")
                    (trim version)).

(** [semver.valid] *)
Definition valid (version : option string) : option string :=
  match version with
  | Some v => parse v
  | None => None
  end.

Definition semver : Semver :=
  {| semver_clean := clean; semver_valid := valid |}.

End SemverModel.

(** ** Scenarios *)

(** A shell that answers the listed commands, and answers every other
    one with no output and no error. *)
Fixpoint answers (table : list (string * ShellHelper.result)) (cmd : string)
  : ShellHelper.result :=
  match table with
  | [] => (None, None)
  | (c, r) :: rest => if String.eqb cmd c then r else answers rest cmd
  end.

Definition output (ls : list string) : ShellHelper.result := (Some ls, None).

Definition failure (e : string) : ShellHelper.result := (None, Some (Error e)).

(** ** JSON values *)

(** What a JSON file holds once parsed, and what a configured key may
    be.  Numbers are integers here; only whether a number is zero
    matters to the code.  The members of an object stand in the order
    in which they were added; the order in which JavaScript lists
    them is not modelled. *)
#[warnings="-register-all"] Inductive value : Type :=
| VUndefined
| VNull
| VBool (b : bool)
| VNum (n : Z)
| VStr (s : string)
| VArr (items : list value)
| VObj (members : list (string * value)).

Module JsValue.

Inductive type : Type :=
| TUndefined | TObject | TBoolean | TNumber | TString.

Definition typeof (v : value) : type :=
  match v with
  | VUndefined => TUndefined
  | VNull | VArr _ | VObj _ => TObject
  | VBool _ => TBoolean
  | VNum _ => TNumber
  | VStr _ => TString
  end.

Definition is_string (v : value) : bool :=
  match typeof v with
  | TString => true
  | _ => false
  end.

Definition truthy (v : value) : bool :=
  match v with
  | VUndefined | VNull => false
  | VBool b => b
  | VNum n => negb (n =? 0)%Z
  | VStr s => Js.truthy_string s
  | VArr _ | VObj _ => true
  end.

(** The string a value becomes inside a template literal. *)
Fixpoint to_string (v : value) : string :=
  match v with
  | VUndefined => "undefined"
  | VNull => "null"
  | VBool true => "true"
  | VBool false => "false"
  | VNum n => NilZero.string_of_int (Z.to_int n)
  | VStr s => s
  | VArr items =>
      String.concat ","
        (map (fun i => match i with
                       | VUndefined | VNull => EmptyString
                       | _ => to_string i
                       end) items)
  | VObj _ => "[object Object]"
  end.

(** [obj[k]] for an object; [undefined] when there is no such
    member, and for every value that is not an object. *)
Fixpoint member_of (members : list (string * value)) (k : string) : value :=
  match members with
  | [] => VUndefined
  | (k', v) :: rest => if String.eqb k k' then v else member_of rest k
  end.

Definition member (obj : value) (k : string) : value :=
  match obj with
  | VObj members => member_of members k
  | _ => VUndefined
  end.

(** [obj[k] = v]: the member is replaced where it stands, or added
    at the end. *)
Fixpoint assign_in (members : list (string * value)) (k : string) (v : value)
  : list (string * value) :=
  match members with
  | [] => [(k, v)]
  | (k', v') :: rest =>
      if String.eqb k k' then (k, v) :: rest
      else (k', v') :: assign_in rest k v
  end.

(** What [JSON.stringify] keeps: members that are [undefined] are
    left out, items that are [undefined] become [null]. *)
Fixpoint stringified (v : value) : value :=
  match v with
  | VArr items =>
      VArr (map (fun i => match i with
                          | VUndefined => VNull
                          | _ => stringified i
                          end) items)
  | VObj members =>
      VObj ((fix keep (ms : list (string * value)) :=
               match ms with
               | [] => []
               | (k, VUndefined) :: rest => keep rest
               | (k, x) :: rest => (k, stringified x) :: keep rest
               end) members)
  | _ => v
  end.

End JsValue.

(** ** A model of the edit-json-file package *)

(** [fileChanger(path, {})] gives an editor holding the parsed content
    of the file, [get] and [set] address it through dotted paths (the
    find-value and set-value packages), [save] writes it back.  The
    disk maps a path to the parsed content of the file there.

    The model reads and writes the members that the objects of the
    file hold themselves.  Outside the model: the properties every
    object inherits ([toString], [constructor] and the like), the
    properties of strings, numbers and arrays, paths with an empty
    segment, and the escapes, quotes and brackets of the path
    splitter; a dot always separates two segments here.  What is
    proved from a key being absent is stated for the keys on which
    model and package agree ([ownKey]). *)
Module fileChanger.

Record editor : Type := Editor { path : string; data : value }.

(** The constructor: the content of the file, or [{}] when the file
    cannot be read.  Nothing is written yet. *)
Definition open (disk : gmap string value) (p : string) : editor :=
  Editor p (default (VObj []) (disk !! p)).

(** find-value: follow the segments member by member. *)
Fixpoint find_value (obj : value) (segments : list string) : value :=
  match segments with
  | [] => obj
  | [k] => JsValue.member obj k
  | k :: rest =>
      match JsValue.member obj k with
      | VUndefined | VNull => VUndefined
      | child => find_value child rest
      end
  end.

(** [get(path)]: the whole content for an empty path. *)
Definition get (e : editor) (p : string) : value :=
  if Js.truthy_string p then find_value (data e) (Js.split "." p)
  else data e.

(** [extend({}, old, new)]: the members of [old], those of [new]
    written over them. *)
Definition extend (old new : list (string * value)) : list (string * value) :=
  fold_left (fun acc kv => JsValue.assign_in acc (fst kv) (snd kv)) new old.

(** set-value: walk the segments, making an object of every step that
    is not one, and assign at the last segment; two plain objects are
    merged there. *)
Fixpoint set_value (obj : value) (segments : list string) (v : value) : value :=
  match obj with
  | VObj members =>
      match segments with
      | [] => obj
      | [k] =>
          match JsValue.member_of members k, v with
          | VObj old, VObj new => VObj (JsValue.assign_in members k (VObj (extend old new)))
          | _, _ => VObj (JsValue.assign_in members k v)
          end
      | k :: rest =>
          let child :=
            match JsValue.member_of members k with
            | VObj ms => VObj ms
            | _ => VObj []
            end in
          VObj (JsValue.assign_in members k (set_value child rest v))
      end
  | _ => obj
  end.

(** [set(path, value)]: an object as [path] sets each of its members;
    a string is a dotted path; set-value ignores any other path. *)
Definition set (e : editor) (p : value) (v : value) : editor :=
  match p with
  | VObj members =>
      Editor (path e)
        (fold_left (fun d kv => set_value d (Js.split "." (fst kv)) (snd kv))
                   members (data e))
  | VStr s => Editor (path e) (set_value (data e) (Js.split "." s) v)
  | _ => e
  end.

(** [save()]: the file now holds [JSON.stringify(data)]. *)
Definition save (disk : gmap string value) (e : editor) : gmap string value :=
  <[path e := JsValue.stringified (data e)]> disk.

End fileChanger.

(** ** The JSON file changer *)

(** What the changer does to the outside, in order. *)
Inductive event : Type :=
| Info (line : string)
| SetCalled (file : string) (argument : value)
| Saved (file : string).

Record world : Type := World { disk : gmap string value; events : list event }.

(** An action runs in a world, leaves a world and ends in an outcome. *)
Definition action (A : Type) : Type := world -> world * outcome A.

#[global] Instance action_ret : MRet action := fun A a w => (w, Resolved a).
#[global] Instance action_bind : MBind action :=
  fun A B k m w =>
    match m w with
    | (w', Resolved a) => k a w'
    | (w', ExceptionError msg cause) => (w', ExceptionError msg cause)
    | (w', SoftExit msg reason) => (w', SoftExit msg reason)
    | (w', TypeError r) => (w', TypeError r)
    end.

Definition emit (e : event) : action unit :=
  fun w => (World (disk w) (events w ++ [e]), Resolved tt).

Definition raise {A} (o : outcome A) : action A := fun w => (w, o).

(** [arr.forEach(f)] for an [f] that acts on the world. *)
Fixpoint forEach {A} (f : A -> action unit) (arr : list A) : action unit :=
  match arr with
  | [] => mret tt
  | x :: rest => _ ← f x; forEach f rest
  end.

(** A configured file [{ url, keys }]; [keys] may be missing. *)
Record target : Type := Target { url : string; keys : option (list value) }.

Module JSONFileChanger.

Definition handlerName : string := "JSONFileChanger".

Definition defaultKeys : list value := [VStr "version"].

Definition isKeyValid (key : value) : bool := JsValue.is_string key.

Definition notSpecified (file : target) : string :=
  "Keys for file " +:+ url file
  +:+ " not specified. Using default keys instead.".

Definition notValid (key : value) : string :=
  "Key " +:+ chalk.underline (JsValue.to_string key)
  +:+ " is not valid for " +:+ handlerName +:+ ".".

Definition someNotValid : string :=
  "One or more keys are not valid for " +:+ handlerName +:+ ".".

Definition notFound (key : string) (file : target) : string :=
  "Key " +:+ chalk.underline_white key +:+ " for file "
  +:+ chalk.underline_white (url file) +:+ " was not found.".

Section Changer.

(** [process.cwd()] *)
Variable rootPath : string.

(** The opened file is one object, changed in place by [set]: the
    loop over the keys hands it on from key to key. *)
Definition updateKey (file : target) (openedFile : fileChanger.editor)
    (key : value) : action fileChanger.editor :=
  match key with
  | VStr k =>
      let value := fileChanger.get openedFile k in
      if JsValue.truthy value then
        _ ← emit (SetCalled (fileChanger.path openedFile) value);
        mret (fileChanger.set openedFile value VUndefined)
      else raise (LogHelper.throwException (notFound k file) None)
  | _ =>
      (* never reached: a key that is not a string has ended the run
         before the loop starts *)
      raise (TypeError "indexOf")
  end.

Fixpoint updateKeys (file : target) (openedFile : fileChanger.editor)
    (fileKeys : list value) : action fileChanger.editor :=
  match fileKeys with
  | [] => mret openedFile
  | key :: rest =>
      openedFile' ← updateKey file openedFile key;
      updateKeys file openedFile' rest
  end.

Definition saveFile (openedFile : fileChanger.editor) : action unit :=
  fun w => (World (fileChanger.save (disk w) openedFile)
                  (events w ++ [Saved (fileChanger.path openedFile)]),
            Resolved tt).

(** The body of [filesData.forEach]. *)
Definition updateFile (file : target) : action unit :=
  fun w =>
    let openedFile := fileChanger.open (disk w) (rootPath +:+ "/" +:+ url file) in
    (fileKeys ←
     match keys file with
     | Some (k :: ks) => mret (k :: ks)
     | _ => _ ← emit (Info (notSpecified file)); mret defaultKeys
     end;
     let invalidKeys := List.filter (fun key => negb (isKeyValid key)) fileKeys in
     _ ← (match invalidKeys with
          | _ :: _ =>
              _ ← forEach (fun key => emit (Info (notValid key))) invalidKeys;
              raise (LogHelper.throwException someNotValid None)
          | [] => mret tt
          end);
     openedFile' ← updateKeys file openedFile fileKeys;
     saveFile openedFile') w.

Definition updateFiles (filesData : list target) : action unit :=
  forEach updateFile filesData.

End Changer.

End JSONFileChanger.

(** ** The specification's words *)

(** The reverse-scan overwrite rule as the specification words it:
    one candidate, overwritten by the cleaned line when that is valid
    semver and reset to [null] when it is not; the candidate left
    after the last line is the result. *)
Fixpoint overwriteRule {semver : Semver} (candidate : option string)
    (scanned : list string) : option string :=
  match scanned with
  | [] => candidate
  | line :: rest =>
      overwriteRule
        (if Js.truthy_ostring (semver_valid (semver_clean line))
         then semver_clean line else None)
        rest
  end.

(** A candidate no other candidate of the list was pushed before. *)
Definition earliest (c : candidate) (l : list candidate) : Prop :=
  forall x, In x l -> (date c <= date x)%N.

(** A message names a text when the text occurs in it. *)
Definition names (message text : string) : Prop :=
  exists before after, message = before +:+ text +:+ after.

(** ** Concrete repositories and files *)

Module Scenario.

Definition cleanTree : string -> ShellHelper.result := answers [].

Definition dirtyTree : string -> ShellHelper.result :=
  answers [(Command.diffQuiet, output ["dirty"])].

Definition brokenProbe : string -> ShellHelper.result :=
  answers [(Command.diffQuiet, failure "fatal: not a git repository")].

Definition onMaster : string -> ShellHelper.result :=
  answers [(Command.currentBranch, output ["master"])].

Definition onTopic : string -> ShellHelper.result :=
  answers [(Command.currentBranch, output ["topic/spike"])].

Definition allowed : list string := ["master"; "develop"].

(** Two branches were merged; [feature/a] was pushed first and has
    since moved on (its diff against HEAD is not empty), [fix/b]
    still equals HEAD. *)
Definition dirtyPushedFirst : string -> ShellHelper.result :=
  answers
    [(Command.currentBranch, output ["master"]);
     (Command.lastMergeParents, output ["1a2b3c4 5d6e7f8"]);
     (Command.branchesContaining "1a2b3c4",
        output ["feature/a"; "fix/b"; "master"]);
     (Command.diffAgainst "feature/a", output ["diff --git a/x b/x"]);
     (Command.diffAgainst "fix/b", (None, None));
     (Command.reflogOf "feature/a", output ["feature/a@{1546300800}"]);
     (Command.reflogOf "fix/b", output ["fix/b@{1546387200}"])].

(** The merge commit is contained in the current branch only. *)
Definition onlyCurrent : string -> ShellHelper.result :=
  answers
    [(Command.currentBranch, output ["master"]);
     (Command.lastMergeParents, output ["1a2b3c4 5d6e7f8"]);
     (Command.branchesContaining "1a2b3c4", output ["master"])].

(** The only candidate has no [/] in its name. *)
Definition noSlash : string -> ShellHelper.result :=
  answers
    [(Command.currentBranch, output ["master"]);
     (Command.lastMergeParents, output ["1a2b3c4 5d6e7f8"]);
     (Command.branchesContaining "1a2b3c4", output ["hotfix"; "master"]);
     (Command.reflogOf "hotfix", output ["hotfix@{1546300800}"])].

Definition taggedRelease : string -> ShellHelper.result :=
  answers [(Command.lastTag, output ["v1.4.2"])].

Definition malformedTag : string -> ShellHelper.result :=
  answers [(Command.lastTag, output ["release-candidate"])].

Definition noTag : string -> ShellHelper.result :=
  answers [(Command.lastTag, failure "fatal: No names found")].

Definition threeLines : string -> ShellHelper.result :=
  answers [(Command.lastSubject, output ["feat: x"; "1.2.3"; "not-a-version"])].

Definition versionFirst : string -> ShellHelper.result :=
  answers [(Command.lastSubject, output ["v2.0.1"; "feat: x"; "3.0.0"])].

End Scenario.

(** The same as a test: [text] starts [s]; [text] occurs in [s]. *)
Fixpoint starts_with (text s : string) : bool :=
  match text, s with
  | EmptyString, _ => true
  | String a t, String b r => Ascii.eqb a b && starts_with t r
  | String _ _, EmptyString => false
  end.

Fixpoint occurs (text s : string) : bool :=
  starts_with text s
  || match s with
     | String _ r => occurs text r
     | EmptyString => false
     end.


Module Files.

Definition root : string := "/repo".

Definition packageJson : string := "/repo/package.json".

(** [{"version": "1.0.0"}] *)
Definition versionOnly : gmap string value :=
  {[ packageJson := VObj [("version", VStr "1.0.0")] ]}.

(** [{"version": "version"}] *)
Definition selfNamed : gmap string value :=
  {[ packageJson := VObj [("version", VStr "version")] ]}.

(** [{"name": "demo", "version": "1.0.0", "build": 0}] *)
Definition package : gmap string value :=
  {[ packageJson :=
       VObj [("name", VStr "demo"); ("version", VStr "1.0.0");
             ("build", VNum 0)] ]}.

Definition withDefaultKeys : target := Target "package.json" None.

Definition withKeys (ks : list value) : target :=
  Target "package.json" (Some ks).

Definition start (d : gmap string value) : world := World d [].

End Files.

(** ** The rest of the helper *)

Section SubjectOptions.

Variable exec : string -> ShellHelper.result.

(** [SubjectOptionsHelper.build] is not under src/: the options it
    builds and the way it builds them are taken as they come. *)
Variable options : Type.

Variable build : list string -> options.

Definition getCommitSubjectOptions : outcome options :=
  let '(subjectLines, err) := exec Command.lastSubject in
  match subjectLines with
  | Some ls => Resolved (build ls)
  | None => LogHelper.throwException "Could not get last commit subject" err
  end.

End SubjectOptions.

(** ** Words for the further properties *)

Definition resolved {A} (o : outcome A) : bool :=
  match o with
  | Resolved _ => true
  | _ => false
  end.

(** A number as git prints it. *)
Definition decimal (n : N) : string := NilZero.string_of_uint (N.to_uint n).

(** The character does not occur in the string. *)
Definition free_of (c : ascii) (s : string) : Prop :=
  existsb (Ascii.eqb c) (list_ascii_of_string s) = false.

(** The largest number up to which every whole number is a double:
    up to it unary plus and the subtraction of the comparator are
    exact. *)
Definition maxExact : N := (2 ^ 53)%N.

(** The timestamp read, if one was read, is within that range. *)
Definition exactTimestamp (o : outcome N) : bool :=
  match o with
  | Resolved t => (t <=? maxExact)%N
  | _ => true
  end.

(** The names every object answers to without holding them: the
    properties of [Object.prototype]. *)
Definition objectPrototype : list string :=
  ["constructor"; "__defineGetter__"; "__defineSetter__"; "hasOwnProperty";
   "__lookupGetter__"; "__lookupSetter__"; "isPrototypeOf";
   "propertyIsEnumerable"; "toString"; "valueOf"; "__proto__";
   "toLocaleString"].

(** A key that is read as one member of the object in the file and as
    nothing else: not empty, without a dot, and not a name that every
    object inherits.  For these keys [fileChanger.get] is the [get] of
    the package. *)
Definition ownKey (k : string) : bool :=
  Js.truthy_string k
  && negb (existsb (Ascii.eqb ".") (list_ascii_of_string k))
  && negb (existsb (String.eqb k) objectPrototype).

(** The object holds a member of that name. *)
Definition isMember (k : string) (members : list (string * value)) : bool :=
  existsb (fun kv => String.eqb k (fst kv)) members.

(** A string of decimal digits. *)
Definition all_digits (s : string) : Prop :=
  forallb Js.is_digit (list_ascii_of_string s) = true.

(** The file a target stands for. *)
Definition fileOf (rootPath : string) (file : target) : string :=
  rootPath +:+ "/" +:+ url file.

(** The files saved, in the order of their [save]. *)
Fixpoint savedFiles (evs : list event) : list string :=
  match evs with
  | [] => []
  | Saved f :: rest => f :: savedFiles rest
  | _ :: rest => savedFiles rest
  end.

(** The arguments of the calls of [set], in their order. *)
Fixpoint setCalls (evs : list event) : list value :=
  match evs with
  | [] => []
  | SetCalled _ v :: rest => v :: setCalls rest
  | _ :: rest => setCalls rest
  end.

(** The keys a file is gone through with. *)
Definition keysOf (file : target) : list value :=
  match keys file with
  | Some (k :: ks) => k :: ks
  | _ => JSONFileChanger.defaultKeys
  end.

Module Scenario2.

(** As [Scenario.dirtyPushedFirst], every [git diff] answering with a
    line of output. *)
Definition allDirty : string -> ShellHelper.result :=
  fun cmd =>
    if starts_with "git diff " cmd then output ["diff --git a/x b/x"]
    else Scenario.dirtyPushedFirst cmd.

(** The reflog of [fix/b] gives nothing. *)
Definition noReflog : string -> ShellHelper.result :=
  answers
    [(Command.currentBranch, output ["master"]);
     (Command.lastMergeParents, output ["1a2b3c4 5d6e7f8"]);
     (Command.branchesContaining "1a2b3c4",
        output ["feature/a"; "fix/b"; "master"]);
     (Command.reflogOf "feature/a", output ["feature/a@{1546300800}"]);
     (Command.reflogOf "fix/b", failure "fatal: ambiguous argument")].

(** The last merge has parents, but no branch is listed for the first
    of them. *)
Definition noBranchListed : string -> ShellHelper.result :=
  answers [(Command.lastMergeParents, output ["1a2b3c4 5d6e7f8"])].

Definition detached : string -> ShellHelper.result :=
  answers [(Command.currentBranch, failure "fatal: not a git repository")].

Definition noSubject : string -> ShellHelper.result :=
  answers [(Command.lastSubject, failure "fatal: bad default revision")].

(** Two files on disk; a third path that no target names. *)
Definition twoFiles : gmap string value :=
  {[ "/repo/package.json" := VObj [("version", VStr "1.0.0")];
     "/repo/bower.json" := VObj [("name", VStr "demo")];
     "/repo/README.md" := VStr "read me" ]}.

Definition package : target := Target "package.json" None.

Definition bower : target := Target "bower.json" None.

Definition absent : target := Target "composer.json" None.

End Scenario2.

(** ** Tactics *)

(** One step of an action: the outermost bind, the outermost return. *)
Ltac run_bind := unfold mbind at 1; unfold action_bind at 1.
Ltac run_ret := unfold mret at 1; unfold action_ret at 1.

(** ** Properties of the branch helper *)

Section BranchHelperFacts.

Variable exec : string -> ShellHelper.result.

Context {semver : Semver}.

Lemma fold_scanLine_overwriteRule (scanned : list string) (candidate : option string) :
  fold_left scanLine scanned candidate = overwriteRule candidate scanned.
Proof.
  revert candidate.
  induction scanned as [|line rest IH]; intros candidate; simpl.
  - reflexivity.
  - rewrite IH. reflexivity.
Qed.

Lemma fold_scanLine_last (scanned : list string) (line : string)
    (candidate : option string) :
  fold_left scanLine (scanned ++ [line]) candidate
  = if Js.truthy_ostring (semver_valid (semver_clean line))
    then semver_clean line else None.
Proof.
  rewrite fold_left_app. reflexivity.
Qed.

(** The promise of [isBranchClean] is truthy for every branch: the
    second [filter] keeps every name it is given. *)
Lemma candidateNames_keeps_unclean (currentBranchName : option string)
    (mergedBranchNames : list string) :
  candidateNames exec currentBranchName mergedBranchNames
  = List.filter (fun name => Js.strict_neq name currentBranchName)
      mergedBranchNames.
Proof.
  unfold candidateNames.
  induction (List.filter _ mergedBranchNames) as [|n ns IH]; simpl.
  - reflexivity.
  - rewrite IH. reflexivity.
Qed.

End BranchHelperFacts.

Lemma insert_by_date_In (c x : candidate) (l : list candidate) :
  In x (insert_by_date c l) <-> x = c \/ In x l.
Proof.
  induction l as [|h t IH]; simpl.
  - intuition.
  - destruct (date c <=? date h)%N; simpl; [intuition|].
    rewrite IH. intuition.
Qed.

Lemma sort_by_date_In (x : candidate) (l : list candidate) :
  In x (sort_by_date l) <-> In x l.
Proof.
  induction l as [|h t IH]; simpl.
  - reflexivity.
  - rewrite insert_by_date_In, IH. intuition.
Qed.

Lemma insert_by_date_head (c : candidate) (l : list candidate) :
  (forall h t, l = h :: t -> earliest h l) ->
  forall h t, insert_by_date c l = h :: t -> earliest h (c :: l).
Proof.
  intros Hl h t.
  destruct l as [|h0 t0]; simpl.
  - intros [= <- <-] x [<-|[]]. lia.
  - destruct (date c <=? date h0)%N eqn:E.
    + intros [= <- <-] x [<-|Hx]; [lia|].
      apply N.leb_le in E. specialize (Hl h0 t0 eq_refl x Hx). lia.
    + intros [= <- <-] x [<-|Hx].
      * apply N.leb_gt in E. lia.
      * exact (Hl h0 t0 eq_refl x Hx).
Qed.

(** The head of the sorted candidates has the smallest date. *)
Lemma sort_by_date_head (l : list candidate) (h : candidate) (t : list candidate) :
  sort_by_date l = h :: t -> earliest h l.
Proof.
  revert h t.
  induction l as [|c l IH]; intros h t; simpl.
  - discriminate.
  - intros E x Hx.
    apply (insert_by_date_head c (sort_by_date l)) in E.
    + apply E. destruct Hx as [<-|Hx]; [left; reflexivity|].
      right. apply sort_by_date_In, Hx.
    + intros h0 t0 E0 y Hy. apply (IH h0 t0 E0). apply sort_by_date_In, Hy.
Qed.

(** [split] never gives an empty array. *)
Lemma split_not_nil (sep : ascii) (s : string) : Js.split sep s <> [].
Proof.
  destruct s as [|c r]; simpl; [discriminate|].
  destruct (Ascii.eqb c sep); [discriminate|].
  destruct (Js.split sep r); discriminate.
Qed.

(** With two pieces or more, the first piece is what stands before
    the first separator. *)
Lemma split_first_piece (sep : ascii) (s p q : string) (more : list string) :
  Js.split sep s = p :: q :: more ->
  exists tail, s = p +:+ String sep tail
               /\ existsb (Ascii.eqb sep) (list_ascii_of_string p) = false.
Proof.
  revert p q more.
  induction s as [|c r IH]; intros p q more; simpl.
  - discriminate.
  - destruct (Ascii.eqb c sep) eqn:Ec.
    + intros [= <- _]. apply Ascii.eqb_eq in Ec. subst c.
      exists r. split; reflexivity.
    + destruct (Js.split sep r) as [|p0 ps] eqn:Er; [discriminate|].
      intros [= <- ->].
      destruct (IH p0 q more eq_refl) as (tail & -> & Hfree).
      exists tail. split; [reflexivity|].
      simpl. rewrite Hfree. rewrite Ascii.eqb_sym, Ec. reflexivity.
Qed.

(** Without a separator in it, a string is its only piece. *)
Lemma split_no_separator (sep : ascii) (s : string) :
  existsb (Ascii.eqb sep) (list_ascii_of_string s) = false ->
  Js.split sep s = [s].
Proof.
  induction s as [|c r IH]; simpl; [reflexivity|].
  intros Hfree. apply orb_false_elim in Hfree as [Hc Hr].
  rewrite Ascii.eqb_sym, Hc, (IH Hr). reflexivity.
Qed.

Section MergedPrefixFacts.

Variable exec : string -> ShellHelper.result.

Lemma promise_all_timestamps (ns : list string) (gathered : list candidate) :
  promise_all
    (map (fun name =>
            date ← getBranchPushTimestamp exec name;
            Resolved (Candidate name date)) ns)
  = Resolved gathered ->
  map name gathered = ns
  /\ Forall (fun c => getBranchPushTimestamp exec (name c) = Resolved (date c))
            gathered.
Proof.
  revert gathered.
  induction ns as [|n ns IH]; intros gathered; simpl.
  - intros [= <-]. split; [reflexivity | constructor].
  - unfold mbind, outcome_bind.
    destruct (getBranchPushTimestamp exec n) as [d| | |] eqn:Ed;
      simpl; try discriminate.
    destruct (promise_all _) as [g| | |]; simpl; try discriminate.
    intros [= <-]. destruct (IH g eq_refl) as [Hnames Hdates].
    split; [simpl; rewrite Hnames; reflexivity|].
    constructor; [exact Ed | exact Hdates].
Qed.

(** What the call does once its probes have answered: every merged
    name but the current one is a candidate, clean or not; the
    candidate pushed first wins; the prefix is cut from its name. *)
Lemma getLastMergedPrefix_outcome (currentBranchName : option string)
    (mergedBranchNames : list string) (gathered : list candidate) :
  getCurrentBranchName exec = Resolved currentBranchName ->
  getLastMergedBranchesNames exec = Resolved mergedBranchNames ->
  promise_all
    (map (fun name =>
            date ← getBranchPushTimestamp exec name;
            Resolved (Candidate name date))
         (List.filter (fun name => Js.strict_neq name currentBranchName)
                      mergedBranchNames))
  = Resolved gathered ->
  map name gathered
  = List.filter (fun name => Js.strict_neq name currentBranchName)
                mergedBranchNames
  /\ match sort_by_date gathered with
     | [] => getLastMergedPrefix exec = TypeError "name"
     | winner :: _ =>
         In winner gathered
         /\ earliest winner gathered
         /\ getLastMergedPrefix exec
            = match Js.split "/" (name winner) with
              | prefix :: _ :: _ => Resolved prefix
              | _ => ExceptionError
                       "Could not extract prefix from last merged branch" None
              end
     end.
Proof.
  intros Hcur Hmerged Hall.
  split; [apply (promise_all_timestamps _ _ Hall)|].
  assert (Hrun : getLastMergedPrefix exec
                 = match sort_by_date gathered with
                   | [] => TypeError "name"
                   | winner :: _ =>
                       match Js.split "/" (name winner) with
                       | prefix :: _ :: _ => Resolved prefix
                       | _ => ExceptionError
                                "Could not extract prefix from last merged branch"
                                None
                       end
                   end).
  { unfold getLastMergedPrefix.
    rewrite Hcur, Hmerged. unfold mbind, outcome_bind. cbn [bind].
    rewrite candidateNames_keeps_unclean.
    unfold mbind, outcome_bind in Hall. rewrite Hall. cbn [bind].
    destruct (sort_by_date gathered) as [|winner rest]; [reflexivity|].
    simpl. destruct (Js.split "/" (name winner)) as [|p [|q more]]; reflexivity. }
  rewrite Hrun.
  destruct (sort_by_date gathered) as [|winner rest] eqn:Hsort.
  - reflexivity.
  - split; [apply sort_by_date_In; rewrite Hsort; left; reflexivity|].
    split; [exact (sort_by_date_head _ _ _ Hsort)|].
    reflexivity.
Qed.

End MergedPrefixFacts.

(** C8: [checkCleanliness] resolves to [true] exactly for a clean
    working tree, that is when the diff probe gives no output and no
    error; when the probe gives output (the tree is dirty) or errors,
    it raises the fatal error. *)
Theorem checkCleanliness_clean_or_fatal (exec : string -> ShellHelper.result)
    (dirty : option (list string)) (err : option error) :
  exec Command.diffQuiet = (dirty, err) ->
  (checkCleanliness exec = Resolved true <-> dirty = None /\ err = None)
  /\ (dirty <> None \/ err <> None -> is_fatal (checkCleanliness exec) = true).
Proof.
  intros Hprobe. unfold checkCleanliness. rewrite Hprobe.
  destruct err as [e|], dirty as [ls|]; simpl; split;
    try (split; [discriminate | intros [? ?]; discriminate]);
    try (intros _; reflexivity).
  - split; [intros _; split; reflexivity | reflexivity].
  - intros [Hd|He]; congruence.
Qed.

Lemma checkCleanliness_clean_or_fatal_witness :
  checkCleanliness Scenario.cleanTree = Resolved true
  /\ is_fatal (checkCleanliness Scenario.dirtyTree) = true
  /\ is_fatal (checkCleanliness Scenario.brokenProbe) = true.
Proof.
  split; [|split].
  - apply (checkCleanliness_clean_or_fatal Scenario.cleanTree None None eq_refl).
    split; reflexivity.
  - apply (checkCleanliness_clean_or_fatal Scenario.dirtyTree
             (Some ["dirty"]) None eq_refl).
    left. discriminate.
  - apply (checkCleanliness_clean_or_fatal Scenario.brokenProbe
             None (Some (Error "fatal: not a git repository")) eq_refl).
    right. discriminate.
Defined.

Lemma includes_In (arr : list string) (s : string) :
  Js.includes arr (Some s) = true <-> In s arr.
Proof.
  simpl. rewrite existsb_exists. split.
  - intros (x & Hx & E). apply String.eqb_eq in E. subst. exact Hx.
  - intros Hs. exists s. split; [exact Hs | apply String.eqb_refl].
Qed.

(** C9: once the current branch name is known, [checkBranchInConfig]
    returns [true] exactly when that name is in the configured list of
    branches; when it is not, the call ends in the soft exit, not in
    the fatal [ExceptionError]. *)
Theorem checkBranchInConfig_member_or_soft_exit
    (exec : string -> ShellHelper.result) (branches : list string)
    (currentBranchName : string) (more : list string) :
  exec Command.currentBranch = (Some (currentBranchName :: more), None) ->
  (checkBranchInConfig exec branches = Resolved true
   <-> In currentBranchName branches)
  /\ (~ In currentBranchName branches ->
      checkBranchInConfig exec branches
      = SoftExit "Current branch is not included in config file" "Skipping..."
      /\ is_fatal (checkBranchInConfig exec branches) = false).
Proof.
  intros Hprobe.
  unfold checkBranchInConfig, getCurrentBranchName. rewrite Hprobe.
  cbn [Js.truthy_object negb Js.first mbind outcome_bind bind].
  pose proof (includes_In branches currentBranchName) as Hin.
  destruct (Js.includes branches (Some currentBranchName)).
  - split.
    + split; [intros _; apply Hin; reflexivity | reflexivity].
    + intros Hnot. exfalso. apply Hnot, Hin. reflexivity.
  - split.
    + split; [discriminate | intros Hyes; apply Hin in Hyes; discriminate].
    + intros _. split; reflexivity.
Qed.

Lemma checkBranchInConfig_member_or_soft_exit_witness :
  checkBranchInConfig Scenario.onMaster Scenario.allowed = Resolved true
  /\ checkBranchInConfig Scenario.onTopic Scenario.allowed
     = SoftExit "Current branch is not included in config file" "Skipping...".
Proof.
  split.
  - apply (checkBranchInConfig_member_or_soft_exit
             Scenario.onMaster Scenario.allowed "master" [] eq_refl).
    simpl. left. reflexivity.
  - apply (checkBranchInConfig_member_or_soft_exit
             Scenario.onTopic Scenario.allowed "topic/spike" [] eq_refl).
    simpl. intros [E|[E|[]]]; discriminate.
Defined.

(** C3: for a commit message of at least one line,
    [getCommitSubjectVersion] runs the overwrite rule over the
    reversed lines, front to back, and returns the candidate that is
    left; that candidate is the cleaned first line of the message when
    it is valid semver and [null] otherwise, also for the lines
    [feat: x], [1.2.3], [not-a-version]. *)
Theorem getCommitSubjectVersion_reverse_scan {semver : Semver}
    (exec : string -> ShellHelper.result)
    (first : string) (others : list string) (err : option error) :
  exec Command.lastSubject = (Some (first :: others), err) ->
  getCommitSubjectVersion exec
  = Resolved (overwriteRule None (rev (first :: others)))
  /\ getCommitSubjectVersion exec
     = Resolved (if Js.truthy_ostring (semver_valid (semver_clean first))
                 then semver_clean first else None)
  /\ (first :: others = ["feat: x"; "1.2.3"; "not-a-version"] ->
      getCommitSubjectVersion exec
      = Resolved (if Js.truthy_ostring (semver_valid (semver_clean "feat: x"))
                  then semver_clean "feat: x" else None)).
Proof.
  intros Hprobe.
  assert (Hlast : getCommitSubjectVersion exec
                  = Resolved (if Js.truthy_ostring (semver_valid (semver_clean first))
                              then semver_clean first else None)).
  { unfold getCommitSubjectVersion. rewrite Hprobe.
    cbn [rev]. rewrite fold_scanLine_last. reflexivity. }
  split; [|split].
  - unfold getCommitSubjectVersion. rewrite Hprobe.
    rewrite fold_scanLine_overwriteRule. reflexivity.
  - exact Hlast.
  - intros [= -> _]. exact Hlast.
Qed.

Lemma getCommitSubjectVersion_reverse_scan_witness :
  getCommitSubjectVersion (semver := SemverModel.semver) Scenario.threeLines
  = Resolved None.
Proof.
  exact (proj1 (proj2 (getCommitSubjectVersion_reverse_scan
                         (semver := SemverModel.semver) Scenario.threeLines
                         "feat: x" ["1.2.3"; "not-a-version"] None eq_refl))).
Defined.

(** Not a version in the first line, versions further down: the
    result is [null]; a version in the first line: that version. *)
Example getCommitSubjectVersion_first_line_only :
  getCommitSubjectVersion (semver := SemverModel.semver) Scenario.threeLines
  = Resolved None
  /\ getCommitSubjectVersion (semver := SemverModel.semver) Scenario.versionFirst
     = Resolved (Some "2.0.1").
Proof. split; reflexivity. Qed.

(** C4, as the code has it: with a tag line at hand [getLastTagVersion]
    returns [semver.clean] of it, which is the normalized version of a
    well-formed tag name and [null] for a malformed one; it raises the
    fatal error only when the tag probe gives no lines. *)
Theorem getLastTagVersion_clean_or_no_tag {semver : Semver}
    (exec : string -> ShellHelper.result)
    (tagLines : option (list string)) (err : option error) :
  exec Command.lastTag = (tagLines, err) ->
  match tagLines with
  | Some (tag :: _) => getLastTagVersion exec = Resolved (semver_clean tag)
  | Some [] => getLastTagVersion exec = TypeError "trim"
  | None => getLastTagVersion exec = ExceptionError "Could not get last tag" err
  end.
Proof.
  intros Hprobe. unfold getLastTagVersion. rewrite Hprobe.
  destruct tagLines as [[|tag more]|]; reflexivity.
Qed.

Lemma getLastTagVersion_clean_or_no_tag_witness :
  getLastTagVersion (semver := SemverModel.semver) Scenario.taggedRelease
  = Resolved (Some "1.4.2")
  /\ getLastTagVersion (semver := SemverModel.semver) Scenario.noTag
     = ExceptionError "Could not get last tag"
         (Some (Error "fatal: No names found")).
Proof.
  split.
  - exact (getLastTagVersion_clean_or_no_tag (semver := SemverModel.semver)
             Scenario.taggedRelease (Some ["v1.4.2"]) None eq_refl).
  - exact (getLastTagVersion_clean_or_no_tag (semver := SemverModel.semver)
             Scenario.noTag None (Some (Error "fatal: No names found")) eq_refl).
Defined.

(** A tag name that is not a version: [semver.clean] gives [null],
    and [null] is what the call returns; nothing is raised. *)
Lemma getLastTagVersion_malformed_tag_not_fatal :
  SemverModel.clean "release-candidate" = None
  /\ getLastTagVersion (semver := SemverModel.semver) Scenario.malformedTag
     = Resolved None
  /\ is_fatal (getLastTagVersion (semver := SemverModel.semver) Scenario.malformedTag)
     = false.
Proof. repeat split. Qed.

(** C1 at a repository where the branch pushed first is not clean:
    [feature/a] differs from HEAD, [fix/b] does not, and the prefix
    returned is that of [feature/a]. *)
Theorem getLastMergedPrefix_takes_unclean_branch :
  isBranchClean Scenario.dirtyPushedFirst "feature/a" = Resolved false
  /\ isBranchClean Scenario.dirtyPushedFirst "fix/b" = Resolved true
  /\ getBranchPushTimestamp Scenario.dirtyPushedFirst "feature/a"
     = Resolved 1546300800%N
  /\ getBranchPushTimestamp Scenario.dirtyPushedFirst "fix/b"
     = Resolved 1546387200%N
  /\ getLastMergedPrefix Scenario.dirtyPushedFirst = Resolved "feature".
Proof. repeat split. Qed.

(** C5 at a repository where no candidate is left once the current
    branch is excluded: the call ends in the runtime's [TypeError],
    not in the reporter's fatal error. *)
Theorem getLastMergedPrefix_no_candidate_type_error :
  getCurrentBranchName Scenario.onlyCurrent = Resolved (Some "master")
  /\ getLastMergedBranchesNames Scenario.onlyCurrent = Resolved ["master"]
  /\ candidateNames Scenario.onlyCurrent (Some "master") ["master"] = []
  /\ getLastMergedPrefix Scenario.onlyCurrent = TypeError "name"
  /\ is_fatal (getLastMergedPrefix Scenario.onlyCurrent) = false.
Proof. repeat split. Qed.

(** The guard on the candidates never fires: an array is truthy. *)
Lemma candidate_guard_never_fires (candidateBranches : list candidate) :
  negb (Js.truthy_array (Some candidateBranches)) = false.
Proof. reflexivity. Qed.

(** The second half of C5 holds: a winner without [/] in its name
    ends in the fatal error of the prefix. *)
Example getLastMergedPrefix_no_slash :
  getLastMergedPrefix Scenario.noSlash
  = ExceptionError "Could not extract prefix from last merged branch" None.
Proof. reflexivity. Qed.

(** ** Properties of the JSON file changer *)

Section ChangerFacts.

Variable rootPath : string.

Import JSONFileChanger.

Lemma forEach_info (line : value -> string) (ks : list value) (w : world) :
  forEach (fun key => emit (Info (line key))) ks w
  = (World (disk w) (events w ++ map (fun key => Info (line key)) ks),
     Resolved tt).
Proof.
  revert w.
  induction ks as [|k ks IH]; intros [d evs]; simpl.
  - rewrite app_nil_r. reflexivity.
  - unfold mbind, action_bind, emit. simpl. rewrite IH. simpl.
    rewrite <- app_assoc. reflexivity.
Qed.

Lemma set_keeps_path (e : fileChanger.editor) (p v : value) :
  fileChanger.path (fileChanger.set e p v) = fileChanger.path e.
Proof. destruct p; reflexivity. Qed.

(** One key: either the rewrite path, with its [set], or the fatal
    error; the verdict is the truthiness of the value read. *)
Lemma updateKey_string (file : target) (opened : fileChanger.editor)
    (k : string) (w : world) :
  updateKey file opened (VStr k) w
  = if JsValue.truthy (fileChanger.get opened k)
    then (World (disk w)
                (events w ++ [SetCalled (fileChanger.path opened)
                                        (fileChanger.get opened k)]),
          Resolved (fileChanger.set opened (fileChanger.get opened k) VUndefined))
    else (w, ExceptionError (notFound k file) None).
Proof.
  unfold updateKey.
  destruct (JsValue.truthy (fileChanger.get opened k)); reflexivity.
Qed.

(** The loop over the keys leaves the disk alone and calls nothing
    but [set]. *)
Lemma updateKeys_effects (file : target) (ks : list value)
    (opened : fileChanger.editor) (w w' : world)
    (o : outcome fileChanger.editor) :
  updateKeys file opened ks w = (w', o) ->
  disk w' = disk w
  /\ exists arguments,
       events w' = events w ++ map (SetCalled (fileChanger.path opened)) arguments.
Proof.
  revert opened w.
  induction ks as [|key ks IH]; intros opened w; simpl.
  - intros [= <- _]. split; [reflexivity|]. exists []. simpl.
    rewrite app_nil_r. reflexivity.
  - unfold mbind, action_bind.
    destruct key as [| |b|n|k|items|members];
      try (simpl; intros [= <- _]; split; [reflexivity|]; exists [];
           simpl; rewrite app_nil_r; reflexivity).
    rewrite updateKey_string.
    destruct (JsValue.truthy (fileChanger.get opened k)).
    + intros Hrest. apply IH in Hrest. simpl in Hrest.
      rewrite set_keeps_path in Hrest.
      destruct Hrest as [Hdisk [args Hev]]. split; [exact Hdisk|].
      exists (fileChanger.get opened k :: args).
      rewrite Hev. simpl. rewrite <- app_assoc. reflexivity.
    + intros [= <- _]. split; [reflexivity|]. exists []. simpl.
      rewrite app_nil_r. reflexivity.
Qed.

Lemma updateKeys_app (file : target) (before after : list value)
    (opened : fileChanger.editor) (w : world) :
  updateKeys file opened (before ++ after) w
  = match updateKeys file opened before w with
    | (w1, Resolved opened1) => updateKeys file opened1 after w1
    | (w1, ExceptionError msg cause) => (w1, ExceptionError msg cause)
    | (w1, SoftExit msg reason) => (w1, SoftExit msg reason)
    | (w1, TypeError r) => (w1, TypeError r)
    end.
Proof.
  revert opened w.
  induction before as [|key before IH]; intros opened w; simpl.
  - reflexivity.
  - unfold mbind, action_bind.
    destruct (updateKey file opened key w) as [w1 [opened1| | |]];
      try reflexivity.
    apply IH.
Qed.

Lemma filter_invalid_nil (ks : list value) :
  Forall (fun key => isKeyValid key = true) ks ->
  List.filter (fun key => negb (isKeyValid key)) ks = [].
Proof.
  induction 1 as [|k ks Hk _ IH]; simpl.
  - reflexivity.
  - rewrite Hk. simpl. exact IH.
Qed.

Lemma filter_invalid_cons (ks : list value) :
  Exists (fun key => isKeyValid key = false) ks ->
  exists k rest, List.filter (fun key => negb (isKeyValid key)) ks = k :: rest.
Proof.
  induction 1 as [k ks Hk|k ks _ IH]; simpl.
  - rewrite Hk. simpl. eauto.
  - destruct (isKeyValid k); simpl; eauto.
Qed.

(** A file whose keys are given and are all strings: the keys are
    gone through, then the file is saved. *)
Lemma updateFile_valid_keys (file : target) (ks : list value) (w : world) :
  keys file = Some ks ->
  ks <> [] ->
  Forall (fun key => isKeyValid key = true) ks ->
  updateFile rootPath file w
  = match updateKeys file
            (fileChanger.open (disk w) (rootPath +:+ "/" +:+ url file))
            ks w with
    | (w1, Resolved opened1) => saveFile opened1 w1
    | (w1, ExceptionError msg cause) => (w1, ExceptionError msg cause)
    | (w1, SoftExit msg reason) => (w1, SoftExit msg reason)
    | (w1, TypeError r) => (w1, TypeError r)
    end.
Proof.
  intros Hkeys Hsome Hvalid. unfold updateFile. rewrite Hkeys.
  destruct ks as [|k ks]; [congruence|].
  run_bind.
  run_ret.
  rewrite (filter_invalid_nil _ Hvalid).
  run_bind.
  run_ret.
  run_bind.
  destruct (updateKeys _ _ _ w) as [w1 [opened1| | |]]; reflexivity.
Qed.

Lemma names_notFound_key (k : string) (file : target) :
  names (notFound k file) k.
Proof.
  exists "Key ", (" for file " +:+ url file +:+ " was not found.").
  reflexivity.
Qed.

Lemma append_assoc (a b c : string) : (a +:+ b) +:+ c = a +:+ b +:+ c.
Proof.
  induction a as [|x a IH]; [reflexivity|].
  change (String x ((a +:+ b) +:+ c) = String x (a +:+ b +:+ c)).
  f_equal. exact IH.
Qed.

Lemma names_notFound_url (k : string) (file : target) :
  names (notFound k file) (url file).
Proof.
  exists ("Key " +:+ k +:+ " for file "), " was not found.".
  unfold notFound, chalk.underline_white.
  rewrite !append_assoc. reflexivity.
Qed.

Lemma starts_with_append (text after : string) :
  starts_with text (text +:+ after) = true.
Proof.
  induction text as [|a t IH]; [reflexivity|].
  change (Ascii.eqb a a && starts_with t (t +:+ after) = true).
  rewrite Ascii.eqb_refl. exact IH.
Qed.

Lemma starts_with_occurs (text s : string) :
  starts_with text s = true -> occurs text s = true.
Proof.
  intros Hstarts. destruct s; simpl; rewrite Hstarts; reflexivity.
Qed.

Lemma names_occurs (message text : string) :
  names message text -> occurs text message = true.
Proof.
  intros (before & after & ->).
  induction before as [|a b IH].
  - change (occurs text (text +:+ after) = true).
    apply starts_with_occurs, starts_with_append.
  - change (occurs text (String a (b +:+ text +:+ after)) = true).
    simpl. rewrite IH. apply orb_true_r.
Qed.

(** Reaching a key whose value reads falsy ends the run: the fatal
    error of that key, the disk as it was, nothing but [set] calls
    behind. *)
Lemma updateFiles_reaches_falsy (file : target) (later : list target)
    (w w' : world) (before after : list value) (k : string)
    (opened : fileChanger.editor) :
  keys file = Some (before ++ VStr k :: after) ->
  Forall (fun key => isKeyValid key = true) (before ++ after) ->
  updateKeys file (fileChanger.open (disk w) (rootPath +:+ "/" +:+ url file))
             before w = (w', Resolved opened) ->
  JsValue.truthy (fileChanger.get opened k) = false ->
  updateFiles rootPath (file :: later) w
  = (w', ExceptionError (notFound k file) None)
  /\ disk w' = disk w
  /\ exists arguments,
       events w' = events w
                   ++ map (SetCalled (rootPath +:+ "/" +:+ url file)) arguments.
Proof.
  intros Hkeys Hvalid Hbefore Hfalsy.
  split.
  - unfold updateFiles. simpl forEach.
    run_bind.
    rewrite (updateFile_valid_keys file _ w Hkeys).
    + rewrite updateKeys_app, Hbefore. simpl updateKeys.
      run_bind.
      rewrite Hfalsy. reflexivity.
    + destruct before; discriminate.
    + apply Forall_app in Hvalid as [Hb Ha].
      apply Forall_app. split; [exact Hb|].
      constructor; [reflexivity | exact Ha].
  - apply updateKeys_effects in Hbefore. exact Hbefore.
Qed.

(** C7: when the keys of a file include a key that is not a string,
    [updateFiles] logs one line for each such key, in their order,
    then raises the one fatal error; the disk is as it was and neither
    [set] nor [save] has been called for the file. *)
Theorem updateFiles_invalid_keys (file : target) (later : list target)
    (w : world) (ks : list value) :
  keys file = Some ks ->
  Exists (fun key => isKeyValid key = false) ks ->
  let invalidKeys := List.filter (fun key => negb (isKeyValid key)) ks in
  updateFiles rootPath (file :: later) w
  = (World (disk w)
           (events w ++ map (fun key => Info (notValid key)) invalidKeys),
     ExceptionError someNotValid None)
  /\ (0 < length invalidKeys)%nat.
Proof.
  intros Hkeys Hinvalid invalidKeys.
  destruct (filter_invalid_cons ks Hinvalid) as (k0 & rest & Hfilter).
  split.
  - unfold updateFiles. simpl forEach.
    run_bind.
    unfold updateFile. rewrite Hkeys.
    destruct ks as [|k ks']; [inversion Hinvalid|].
    run_bind.
    run_ret.
    run_bind.
    subst invalidKeys. rewrite Hfilter.
    run_bind.
    rewrite forEach_info. reflexivity.
  - subst invalidKeys. rewrite Hfilter. simpl. lia.
Qed.

Lemma member_of_absent (k : string) (members : list (string * value)) :
  isMember k members = false -> JsValue.member_of members k = VUndefined.
Proof.
  induction members as [|[k' v] members IH]; simpl; [reflexivity|].
  intros Habsent. apply orb_false_elim in Habsent as [Hk Hrest].
  rewrite Hk. exact (IH Hrest).
Qed.

(** An own key is read as the member of that name. *)
Lemma get_own_key (p k : string) (members : list (string * value)) :
  ownKey k = true ->
  fileChanger.get (fileChanger.Editor p (VObj members)) k
  = JsValue.member_of members k.
Proof.
  unfold ownKey. intros Hown.
  apply andb_prop in Hown as [Hown _].
  apply andb_prop in Hown as [Hsome Hdot].
  apply negb_true_iff in Hdot.
  unfold fileChanger.get. rewrite Hsome. cbn [fileChanger.data].
  rewrite (split_no_separator "." k Hdot). reflexivity.
Qed.

(** C6, as the code has it: when the keys of a file are all strings
    and the first of them is an own key (not empty, without a dot,
    not a name every object inherits) that is no member of the object
    the file holds, [updateFiles] raises the fatal error whose
    message names that key and the [url] of the file; nothing is
    logged, set or saved, and the disk is as it was. *)
Theorem updateFiles_missing_key_not_found (file : target)
    (later : list target) (w : world) (k : string) (after : list value)
    (members : list (string * value)) :
  keys file = Some (VStr k :: after) ->
  Forall (fun key => isKeyValid key = true) after ->
  ownKey k = true ->
  disk w !! (rootPath +:+ "/" +:+ url file) = Some (VObj members) ->
  isMember k members = false ->
  updateFiles rootPath (file :: later) w
  = (w, ExceptionError (notFound k file) None)
  /\ names (notFound k file) k
  /\ names (notFound k file) (url file).
Proof.
  intros Hkeys Hvalid Hown Hfile Habsent.
  destruct (updateFiles_reaches_falsy file later w w [] after k
              (fileChanger.open (disk w) (rootPath +:+ "/" +:+ url file))
              Hkeys Hvalid eq_refl) as (Hrun & _ & _).
  { unfold fileChanger.open. rewrite Hfile. cbn [default].
    rewrite (get_own_key _ k members Hown), (member_of_absent k members Habsent).
    reflexivity. }
  split; [exact Hrun|].
  split; [apply names_notFound_key | apply names_notFound_url].
Qed.


End ChangerFacts.

Lemma updateFiles_invalid_keys_witness :
  JSONFileChanger.updateFiles Files.root
    [Files.withKeys [VNum 5; VStr "versn"; VNull]] (Files.start Files.package)
  = (World Files.package
           [Info "Key 5 is not valid for JSONFileChanger.";
            Info "Key null is not valid for JSONFileChanger."],
     ExceptionError "One or more keys are not valid for JSONFileChanger." None).
Proof.
  apply (updateFiles_invalid_keys Files.root
           (Files.withKeys [VNum 5; VStr "versn"; VNull]) []
           (Files.start Files.package) [VNum 5; VStr "versn"; VNull]).
  - reflexivity.
  - apply Exists_cons_hd. reflexivity.
Defined.

Lemma updateFiles_missing_key_not_found_witness :
  JSONFileChanger.updateFiles Files.root
    [Files.withKeys [VStr "versn"; VStr "name"]] (Files.start Files.package)
  = (Files.start Files.package,
     ExceptionError "Key versn for file package.json was not found." None).
Proof.
  apply (updateFiles_missing_key_not_found Files.root
           (Files.withKeys [VStr "versn"; VStr "name"]) []
           (Files.start Files.package) "versn" [VStr "name"]
           [("name", VStr "demo"); ("version", VStr "1.0.0");
            ("build", VNum 0)]).
  - reflexivity.
  - repeat constructor.
  - vm_compute. reflexivity.
  - vm_compute. reflexivity.
  - vm_compute. reflexivity.
Defined.

(** Two files whose keys hold a missing key that is not named.  A
    number before it: the run ends in the fatal error of the invalid
    keys, whose message names neither the missing key nor the file.
    A key with the value [0] before it: the message names that key,
    which the file does hold. *)
Lemma updateFiles_missing_key_behind_invalid_key :
  fileChanger.get (fileChanger.open Files.package Files.packageJson) "versn"
  = VUndefined
  /\ snd (JSONFileChanger.updateFiles Files.root
            [Files.withKeys [VNum 5; VStr "versn"]] (Files.start Files.package))
     = ExceptionError "One or more keys are not valid for JSONFileChanger." None
  /\ ~ names "One or more keys are not valid for JSONFileChanger." "versn"
  /\ ~ names "One or more keys are not valid for JSONFileChanger." "package.json"
  /\ fileChanger.get (fileChanger.open Files.package Files.packageJson) "build"
     = VNum 0
  /\ snd (JSONFileChanger.updateFiles Files.root
            [Files.withKeys [VStr "build"; VStr "versn"]]
            (Files.start Files.package))
     = ExceptionError "Key build for file package.json was not found." None
  /\ ~ names "Key build for file package.json was not found." "versn".
Proof.
  split; [vm_compute; reflexivity|].
  split; [vm_compute; reflexivity|].
  split; [intros Hnames; apply names_occurs in Hnames;
          vm_compute in Hnames; discriminate|].
  split; [intros Hnames; apply names_occurs in Hnames;
          vm_compute in Hnames; discriminate|].
  split; [vm_compute; reflexivity|].
  split; [vm_compute; reflexivity|].
  intros Hnames; apply names_occurs in Hnames;
    vm_compute in Hnames; discriminate.
Qed.


(** C2 at the file [{"version": "1.0.0"}] with the default keys: the
    run completes, and the saved file holds the member [version] as
    before and, next to it, a member [1] that was not there: [set] is
    called with the value read as its path. *)
Theorem updateFiles_default_keys_adds_member :
  let run := JSONFileChanger.updateFiles Files.root [Files.withDefaultKeys]
               (Files.start Files.versionOnly) in
  let before :=
    fileChanger.data (fileChanger.open Files.versionOnly Files.packageJson) in
  let after :=
    fileChanger.data (fileChanger.open (disk (fst run)) Files.packageJson) in
  snd run = Resolved tt
  /\ events (fst run)
     = [Info "Keys for file package.json not specified. Using default keys instead.";
        SetCalled Files.packageJson (VStr "1.0.0");
        Saved Files.packageJson]
  /\ JsValue.member before "version" = VStr "1.0.0"
  /\ JsValue.member before "1" = VUndefined
  /\ JsValue.member after "version" = VStr "1.0.0"
  /\ JsValue.member after "1" = VObj [("0", VObj [])]
  /\ after <> before.
Proof.
  repeat split; try (vm_compute; reflexivity).
  vm_compute. discriminate.
Qed.

(** The same slip at the file [{"version": "version"}]: the value
    read is the path of the member itself, which is set to
    [undefined]; the saved file has lost its version. *)
Example updateFiles_default_keys_drops_member :
  snd (JSONFileChanger.updateFiles Files.root [Files.withDefaultKeys]
         (Files.start Files.selfNamed))
  = Resolved tt
  /\ disk (fst (JSONFileChanger.updateFiles Files.root [Files.withDefaultKeys]
                  (Files.start Files.selfNamed))) !! Files.packageJson
     = Some (VObj []).
Proof. split; vm_compute; reflexivity. Qed.

(** What does hold of C2: with the default keys and a version that is
    a non-empty string, the run of the file completes, after one
    [set] and one [save]. *)
Lemma updateFiles_default_keys_completes (rootPath : string) (file : target)
    (w : world) (version : string) :
  keys file = None ->
  fileChanger.get
    (fileChanger.open (disk w) (rootPath +:+ "/" +:+ url file)) "version"
  = VStr version ->
  version <> EmptyString ->
  snd (JSONFileChanger.updateFiles rootPath [file] w) = Resolved tt
  /\ events (fst (JSONFileChanger.updateFiles rootPath [file] w))
     = events w
       ++ [Info (JSONFileChanger.notSpecified file);
           SetCalled (rootPath +:+ "/" +:+ url file) (VStr version);
           Saved (rootPath +:+ "/" +:+ url file)].
Proof.
  intros Hkeys Hget Hversion.
  unfold JSONFileChanger.updateFiles. simpl forEach. run_bind.
  unfold JSONFileChanger.updateFile. rewrite Hkeys.
  unfold mbind, action_bind, mret, action_ret, emit. simpl.
  rewrite Hget.
  destruct version as [|c r]; [congruence|].
  simpl. rewrite <- !app_assoc. split; reflexivity.
Qed.

(** ** Further properties of the branch helper *)

Lemma append_cons (c : ascii) (s t : string) :
  String c s +:+ t = String c (s +:+ t).
Proof. reflexivity. Qed.

Lemma append_empty (t : string) : EmptyString +:+ t = t.
Proof. reflexivity. Qed.

Lemma append_empty_r (s : string) : s +:+ EmptyString = s.
Proof.
  induction s as [|c s IH]; [reflexivity|].
  rewrite append_cons, IH. reflexivity.
Qed.

Lemma span_digits_app (ds rest : string) :
  all_digits ds ->
  match rest with
  | String c _ => Js.is_digit c = false
  | EmptyString => True
  end ->
  Js.span_digits (ds +:+ rest) = (ds, rest).
Proof.
  intros Hds Hrest.
  induction ds as [|d ds IH].
  - rewrite append_empty. destruct rest as [|c r]; simpl; [reflexivity|].
    rewrite Hrest. reflexivity.
  - unfold all_digits in Hds. simpl in Hds.
    apply andb_prop in Hds as [Hd Hds].
    rewrite append_cons. simpl. rewrite Hd, (IH Hds). reflexivity.
Qed.

Lemma match_reflog_skip (before s : string) :
  free_of "@" before -> match_reflog (before +:+ s) = match_reflog s.
Proof.
  unfold free_of.
  induction before as [|c b IH]; intros Hfree.
  - reflexivity.
  - simpl in Hfree. apply orb_false_elim in Hfree as [Hc Hb].
    rewrite append_cons. simpl.
    destruct c as [[] [] [] [] [] [] [] []]; try discriminate; exact (IH Hb).
Qed.

Lemma match_reflog_selector (ds after : string) :
  all_digits ds -> ds <> EmptyString ->
  match_reflog ("@{" +:+ ds +:+ "}" +:+ after) = Some ds.
Proof.
  intros Hds Hsome.
  change ("@{" +:+ ds +:+ "}" +:+ after)
    with (String "@" (String "{" (ds +:+ String "}" after))).
  simpl. rewrite (span_digits_app ds (String "}" after) Hds eq_refl).
  destruct ds; [congruence | reflexivity].
Qed.

Lemma uint_digits (d : Decimal.uint) :
  all_digits (NilEmpty.string_of_uint d).
Proof.
  unfold all_digits. induction d; simpl; try exact IHd. reflexivity.
Qed.

Lemma decimal_digits (n : N) : all_digits (decimal n) /\ decimal n <> EmptyString.
Proof.
  unfold decimal.
  destruct n as [|p]; [split; [reflexivity | discriminate]|].
  cbn [N.to_uint].
  pose proof (Unsigned.to_uint_nonnil p) as Hnil.
  destruct (Pos.to_uint p) eqn:E; try congruence;
    (split; [apply (uint_digits (_ u)) | discriminate]).
Qed.

Lemma horner_positive (d : Decimal.uint) (p : positive) :
  fold_left (fun acc c => (10 * acc + Js.digit_value c)%N)
            (list_ascii_of_string (NilEmpty.string_of_uint d)) (N.pos p)
  = N.pos (Pos.of_uint_acc d p).
Proof.
  revert p.
  induction d; intros p; simpl; try (rewrite <- IHd; f_equal; vm_compute Js.digit_value; lia).
  reflexivity.
Qed.

Lemma horner_zero (d : Decimal.uint) :
  fold_left (fun acc c => (10 * acc + Js.digit_value c)%N)
            (list_ascii_of_string (NilEmpty.string_of_uint d)) 0%N
  = Pos.of_uint d.
Proof.
  induction d; simpl; try exact IHd;
    try (rewrite <- horner_positive; f_equal).
  reflexivity.
Qed.

(** Unary plus reads back what was printed. *)
Lemma number_of_digits_decimal (n : N) : Js.number_of_digits (decimal n) = n.
Proof.
  unfold Js.number_of_digits, decimal.
  rewrite <- (DecimalN.Unsigned.of_to n) at 2. unfold N.of_uint.
  destruct (N.to_uint n) eqn:E; try apply (horner_zero (_ u)).
  destruct n; [discriminate|].
  exfalso. exact (Unsigned.to_uint_nonnil _ E).
Qed.

(** X1: when the first reflog line holds the selector [@{t}], with no
    [@] before it and [t] at most [2^53] (so that the number read is
    the number written), [getBranchPushTimestamp] resolves to the very
    number [t] that is printed there, whatever follows the selector,
    whatever further lines there are and whether or not an error came
    with the lines. *)
Theorem getBranchPushTimestamp_reads_selector
    (exec : string -> ShellHelper.result) (branchName before after : string)
    (t : N) (more : list string) (err : option error) :
  exec (Command.reflogOf branchName)
  = (Some ((before +:+ "@{" +:+ decimal t +:+ "}" +:+ after) :: more), err) ->
  free_of "@" before ->
  (t <= maxExact)%N ->
  getBranchPushTimestamp exec branchName = Resolved t.
Proof.
  intros Hprobe Hfree _.
  unfold getBranchPushTimestamp. rewrite Hprobe. cbn [Js.first].
  destruct (decimal_digits t) as [Hdigits Hsome].
  rewrite (match_reflog_skip before _ Hfree).
  rewrite (match_reflog_selector (decimal t) after Hdigits Hsome).
  rewrite number_of_digits_decimal.
  destruct (decimal t); [congruence | reflexivity].
Qed.

Lemma getBranchPushTimestamp_reads_selector_witness :
  getBranchPushTimestamp Scenario.dirtyPushedFirst "feature/a"
  = Resolved 1546300800%N.
Proof.
  apply (getBranchPushTimestamp_reads_selector Scenario.dirtyPushedFirst
           "feature/a" "feature/a" EmptyString 1546300800%N [] None).
  - vm_compute. reflexivity.
  - vm_compute. reflexivity.
  - vm_compute. discriminate.
Defined.

Lemma match_reflog_none (line : string) :
  free_of "@" line -> match_reflog line = None.
Proof.
  unfold free_of.
  induction line as [|c l IH]; intros Hfree; [reflexivity|].
  simpl in Hfree. apply orb_false_elim in Hfree as [Hc Hl].
  simpl.
  destruct c as [[] [] [] [] [] [] [] []]; try discriminate; exact (IH Hl).
Qed.

(** X2: when the reflog probe gives no lines, or a first line without
    any [@], [getBranchPushTimestamp] raises the fatal error whose
    message names the branch and whose cause is the error of the
    probe. *)
Theorem getBranchPushTimestamp_no_selector
    (exec : string -> ShellHelper.result) (branchName : string)
    (lines : option (list string)) (err : option error) :
  exec (Command.reflogOf branchName) = (lines, err) ->
  lines = None
  \/ (exists line more, lines = Some (line :: more) /\ free_of "@" line) ->
  getBranchPushTimestamp exec branchName
  = ExceptionError ("Could not get reflog for branch " +:+ branchName) err
  /\ names ("Could not get reflog for branch " +:+ branchName) branchName.
Proof.
  intros Hprobe Hlines. split.
  - unfold getBranchPushTimestamp. rewrite Hprobe.
    destruct Hlines as [->|(line & more & -> & Hfree)]; [reflexivity|].
    cbn [Js.first]. rewrite (match_reflog_none line Hfree). reflexivity.
  - exists "Could not get reflog for branch ", EmptyString.
    rewrite append_empty_r. reflexivity.
Qed.

Lemma getBranchPushTimestamp_no_selector_witness :
  getBranchPushTimestamp Scenario2.noReflog "fix/b"
  = ExceptionError "Could not get reflog for branch fix/b"
      (Some (Error "fatal: ambiguous argument")).
Proof.
  apply (getBranchPushTimestamp_no_selector Scenario2.noReflog "fix/b"
           None (Some (Error "fatal: ambiguous argument"))).
  - vm_compute. reflexivity.
  - left. reflexivity.
Defined.

Lemma split_head (sep : ascii) (p tail : string) :
  free_of sep p ->
  Js.split sep (p +:+ String sep tail) = p :: Js.split sep tail.
Proof.
  unfold free_of.
  induction p as [|c p IH]; intros Hfree.
  - rewrite append_empty. simpl. rewrite Ascii.eqb_refl. reflexivity.
  - simpl in Hfree. apply orb_false_elim in Hfree as [Hc Hp].
    rewrite append_cons. simpl.
    rewrite Ascii.eqb_sym, Hc, (IH Hp). reflexivity.
Qed.

(** X3: of the parents that the last merge prints on its first line,
    [getLastMergedBranchesNames] uses the first one only: it answers
    what [getBranchNamesFromCommitHash] answers for the hash that
    stands before the first space, or for the whole line when there is
    no space in it. *)
Theorem getLastMergedBranchesNames_first_parent
    (exec : string -> ShellHelper.result) (line hash : string)
    (more : list string) (err : option error) :
  exec Command.lastMergeParents = (Some (line :: more), err) ->
  free_of " " hash ->
  line = hash \/ (exists others, line = hash +:+ " " +:+ others) ->
  getLastMergedBranchesNames exec = getBranchNamesFromCommitHash exec hash.
Proof.
  intros Hprobe Hfree Hline.
  unfold getLastMergedBranchesNames. rewrite Hprobe. cbn [Js.first].
  destruct Hline as [->|(others & ->)].
  - rewrite (split_no_separator " " hash Hfree). reflexivity.
  - change (hash +:+ " " +:+ others) with (hash +:+ String " " others).
    rewrite (split_head " " hash others Hfree). reflexivity.
Qed.

Lemma getLastMergedBranchesNames_first_parent_witness :
  getLastMergedBranchesNames Scenario.dirtyPushedFirst
  = getBranchNamesFromCommitHash Scenario.dirtyPushedFirst "1a2b3c4".
Proof.
  apply (getLastMergedBranchesNames_first_parent Scenario.dirtyPushedFirst
           "1a2b3c4 5d6e7f8" "1a2b3c4" [] None).
  - vm_compute. reflexivity.
  - vm_compute. reflexivity.
  - right. exists "5d6e7f8". reflexivity.
Defined.

Lemma bind_resolved {A B} (m : outcome A) (k : A -> outcome B) (b : B) :
  (m ≫= k) = Resolved b -> exists a, m = Resolved a /\ k a = Resolved b.
Proof.
  unfold mbind, outcome_bind.
  destruct m as [a| | |]; simpl; try discriminate.
  intros Hk. exists a. split; [reflexivity | exact Hk].
Qed.

Lemma strict_neq_filter (currentBranchName : option string)
    (mergedBranchNames : list string) (n : string) :
  In n (List.filter (fun name => Js.strict_neq name currentBranchName)
          mergedBranchNames)
  <-> In n mergedBranchNames /\ Js.strict_neq n currentBranchName = true.
Proof. apply filter_In. Qed.

(** X4: with the timestamps of the merged branches at most [2^53]
    (so that the numbers compared are the numbers written), whenever
    [getLastMergedPrefix] resolves, what it returns is free of [/]
    and is followed by [/] in the name of a merged branch that is not
    the current one; the push timestamp of that branch was read, and
    so was the timestamp of every other merged branch but the current
    one, none of them smaller. *)
Theorem getLastMergedPrefix_sound (exec : string -> ShellHelper.result)
    (prefix : string) :
  (forall mergedBranchNames,
     getLastMergedBranchesNames exec = Resolved mergedBranchNames ->
     Forall (fun name => exactTimestamp (getBranchPushTimestamp exec name) = true)
            mergedBranchNames) ->
  getLastMergedPrefix exec = Resolved prefix ->
  exists currentBranchName mergedBranchNames tail t,
    getCurrentBranchName exec = Resolved currentBranchName
    /\ getLastMergedBranchesNames exec = Resolved mergedBranchNames
    /\ In (prefix +:+ "/" +:+ tail) mergedBranchNames
    /\ Js.strict_neq (prefix +:+ "/" +:+ tail) currentBranchName = true
    /\ free_of "/" prefix
    /\ getBranchPushTimestamp exec (prefix +:+ "/" +:+ tail) = Resolved t
    /\ forall other,
         In other mergedBranchNames ->
         Js.strict_neq other currentBranchName = true ->
         exists t', getBranchPushTimestamp exec other = Resolved t'
                    /\ (t <= t')%N.
Proof.
  intros _ Hrun. pose proof Hrun as Hrun0.
  unfold getLastMergedPrefix in Hrun.
  apply bind_resolved in Hrun as (cur & Hcur & Hrun).
  apply bind_resolved in Hrun as (merged & Hmerged & Hrun).
  apply bind_resolved in Hrun as (gathered & Hall & _).
  rewrite candidateNames_keeps_unclean in Hall.
  destruct (getLastMergedPrefix_outcome exec cur merged gathered
              Hcur Hmerged Hall) as [Hnames Hwinner].
  destruct (promise_all_timestamps exec _ _ Hall) as [_ Hdates].
  destruct (sort_by_date gathered) as [|winner rest];
    [rewrite Hwinner in Hrun0; discriminate|].
  destruct Hwinner as (Hin & Hearliest & Hresult).
  rewrite Hrun0 in Hresult.
  destruct (Js.split "/" (name winner)) as [|p [|q more]] eqn:Hsplit;
    try discriminate.
  injection Hresult as <-.
  destruct (split_first_piece "/" _ _ _ _ Hsplit) as (tail & Hname & Hfree).
  change (prefix +:+ String "/" tail) with (prefix +:+ "/" +:+ tail) in Hname.
  assert (Hcandidate : In (name winner)
            (List.filter (fun n => Js.strict_neq n cur) merged)).
  { rewrite <- Hnames. apply in_map, Hin. }
  apply strict_neq_filter in Hcandidate as [Hmember Hother].
  rewrite Hname in Hmember, Hother.
  exists cur, merged, tail, (date winner).
  repeat split; try assumption.
  - rewrite <- Hname.
    rewrite List.Forall_forall in Hdates. exact (Hdates winner Hin).
  - intros other Hin' Hneq.
    assert (Hc : In other (map name gathered)).
    { rewrite Hnames. apply strict_neq_filter. split; assumption. }
    apply in_map_iff in Hc as (c & <- & Hc).
    exists (date c). split.
    + rewrite List.Forall_forall in Hdates. exact (Hdates c Hc).
    + exact (Hearliest c Hc).
Qed.

Lemma getLastMergedPrefix_sound_witness :
  exists currentBranchName mergedBranchNames tail t,
    getCurrentBranchName Scenario.dirtyPushedFirst = Resolved currentBranchName
    /\ getLastMergedBranchesNames Scenario.dirtyPushedFirst
       = Resolved mergedBranchNames
    /\ In ("feature" +:+ "/" +:+ tail) mergedBranchNames
    /\ Js.strict_neq ("feature" +:+ "/" +:+ tail) currentBranchName = true
    /\ free_of "/" "feature"
    /\ getBranchPushTimestamp Scenario.dirtyPushedFirst
         ("feature" +:+ "/" +:+ tail) = Resolved t
    /\ forall other,
         In other mergedBranchNames ->
         Js.strict_neq other currentBranchName = true ->
         exists t', getBranchPushTimestamp Scenario.dirtyPushedFirst other
                    = Resolved t'
                    /\ (t <= t')%N.
Proof.
  apply (getLastMergedPrefix_sound Scenario.dirtyPushedFirst "feature").
  - intros mergedBranchNames Hmerged.
    vm_compute in Hmerged. injection Hmerged as <-.
    repeat constructor.
  - vm_compute. reflexivity.
Defined.

Section DiffProbes.

Variables exec exec' : string -> ShellHelper.result.

Hypothesis agree :
  forall cmd, starts_with "git diff " cmd = false -> exec cmd = exec' cmd.

Lemma getCurrentBranchName_agree :
  getCurrentBranchName exec = getCurrentBranchName exec'.
Proof.
  unfold getCurrentBranchName.
  rewrite (agree Command.currentBranch eq_refl). reflexivity.
Qed.

Lemma getLastMergedBranchesNames_agree :
  getLastMergedBranchesNames exec = getLastMergedBranchesNames exec'.
Proof.
  unfold getLastMergedBranchesNames, getBranchNamesFromCommitHash.
  rewrite (agree Command.lastMergeParents eq_refl).
  destruct (exec' Command.lastMergeParents) as [[[|line more]|] err];
    try reflexivity.
  cbn [Js.first].
  destruct (Js.split " " line) as [|hash pieces]; [reflexivity|].
  cbn [Js.first].
  rewrite (agree (Command.branchesContaining hash) eq_refl). reflexivity.
Qed.

Lemma getBranchPushTimestamp_agree (branchName : string) :
  getBranchPushTimestamp exec branchName
  = getBranchPushTimestamp exec' branchName.
Proof.
  unfold getBranchPushTimestamp.
  rewrite (agree (Command.reflogOf branchName) eq_refl). reflexivity.
Qed.

(** X5: as long as no [git diff] probe of a branch comes with an
    error, the result of [getLastMergedPrefix] does not depend on
    what those probes answer, that is on which branches are clean:
    two shells that agree on every other command give the same
    result, whether a value or a failure. *)
Theorem getLastMergedPrefix_ignores_diff_probes :
  (forall branchName, resolved (isBranchClean exec branchName) = true) ->
  (forall branchName, resolved (isBranchClean exec' branchName) = true) ->
  getLastMergedPrefix exec = getLastMergedPrefix exec'.
Proof.
  intros _ _.
  unfold getLastMergedPrefix.
  rewrite getCurrentBranchName_agree, getLastMergedBranchesNames_agree.
  destruct (getCurrentBranchName exec') as [cur| | |]; try reflexivity.
  destruct (getLastMergedBranchesNames exec') as [merged| | |]; try reflexivity.
  unfold mbind at 1 2 5 6, outcome_bind at 1 2 5 6. cbn [bind].
  rewrite !candidateNames_keeps_unclean.
  rewrite (map_ext _ _ (fun name =>
             f_equal (fun m => m ≫= _) (getBranchPushTimestamp_agree name))).
  reflexivity.
Qed.

End DiffProbes.

Lemma getLastMergedPrefix_ignores_diff_probes_witness :
  getLastMergedPrefix Scenario.dirtyPushedFirst
  = getLastMergedPrefix Scenario2.allDirty.
Proof.
  apply (getLastMergedPrefix_ignores_diff_probes
           Scenario.dirtyPushedFirst Scenario2.allDirty).
  - intros cmd Hcmd. unfold Scenario2.allDirty. rewrite Hcmd. reflexivity.
  - intros branchName.
    unfold isBranchClean, Scenario.dirtyPushedFirst, answers.
    repeat destruct (String.eqb _ _); reflexivity.
  - intros branchName. vm_compute. reflexivity.
Defined.

(** X6: the timestamps are gathered all or nothing: when the reflog
    lookup fails for one merged branch other than the current one,
    [getLastMergedPrefix] does not resolve, whatever the other
    branches and their timestamps are. *)
Theorem getLastMergedPrefix_all_or_nothing
    (exec : string -> ShellHelper.result) (currentBranchName : option string)
    (mergedBranchNames : list string) (branchName : string) :
  getCurrentBranchName exec = Resolved currentBranchName ->
  getLastMergedBranchesNames exec = Resolved mergedBranchNames ->
  In branchName mergedBranchNames ->
  Js.strict_neq branchName currentBranchName = true ->
  resolved (getBranchPushTimestamp exec branchName) = false ->
  resolved (getLastMergedPrefix exec) = false.
Proof.
  intros Hcur Hmerged Hin Hneq Hfails.
  destruct (getLastMergedPrefix exec) as [prefix| | |] eqn:Hrun;
    try reflexivity.
  exfalso.
  unfold getLastMergedPrefix in Hrun. rewrite Hcur, Hmerged in Hrun.
  apply bind_resolved in Hrun as (cur & [= <-] & Hrun).
  apply bind_resolved in Hrun as (merged & [= <-] & Hrun).
  apply bind_resolved in Hrun as (gathered & Hall & _).
  rewrite candidateNames_keeps_unclean in Hall.
  destruct (promise_all_timestamps exec _ _ Hall) as [Hnames Hdates].
  assert (Hc : In branchName (map name gathered)).
  { rewrite Hnames. apply strict_neq_filter. split; assumption. }
  apply in_map_iff in Hc as (c & <- & Hc).
  rewrite List.Forall_forall in Hdates.
  rewrite (Hdates c Hc) in Hfails. discriminate.
Qed.

Lemma getLastMergedPrefix_all_or_nothing_witness :
  resolved (getLastMergedPrefix Scenario2.noReflog) = false.
Proof.
  apply (getLastMergedPrefix_all_or_nothing Scenario2.noReflog
           (Some "master") ["feature/a"; "fix/b"; "master"] "fix/b").
  - vm_compute. reflexivity.
  - vm_compute. reflexivity.
  - simpl. right. left. reflexivity.
  - vm_compute. reflexivity.
  - vm_compute. reflexivity.
Defined.

(** X7: when the probe of the current branch comes with an error,
    [getCurrentBranchName] raises the fatal error whose cause is that
    error, whatever the lines are, and so do both of its callers:
    [checkBranchInConfig] does not take its soft exit, and
    [getLastMergedPrefix] goes no further. *)
Theorem getCurrentBranchName_failure_reaches_callers
    (exec : string -> ShellHelper.result) (branches : list string)
    (lines : option (list string)) (e : error) :
  exec Command.currentBranch = (lines, Some e) ->
  getCurrentBranchName exec
  = ExceptionError "Could not get current branch name" (Some e)
  /\ checkBranchInConfig exec branches
     = ExceptionError "Could not get current branch name" (Some e)
  /\ getLastMergedPrefix exec
     = ExceptionError "Could not get current branch name" (Some e).
Proof.
  intros Hprobe.
  assert (Hname : getCurrentBranchName exec
                  = ExceptionError "Could not get current branch name" (Some e)).
  { unfold getCurrentBranchName. rewrite Hprobe. reflexivity. }
  split; [exact Hname|].
  split.
  - unfold checkBranchInConfig. rewrite Hname. reflexivity.
  - unfold getLastMergedPrefix. rewrite Hname. reflexivity.
Qed.

Lemma getCurrentBranchName_failure_reaches_callers_witness :
  checkBranchInConfig Scenario2.detached Scenario.allowed
  = ExceptionError "Could not get current branch name"
      (Some (Error "fatal: not a git repository"))
  /\ getLastMergedPrefix Scenario2.detached
     = ExceptionError "Could not get current branch name"
         (Some (Error "fatal: not a git repository")).
Proof.
  apply (getCurrentBranchName_failure_reaches_callers Scenario2.detached
           Scenario.allowed None (Error "fatal: not a git repository")).
  vm_compute. reflexivity.
Defined.

(** X8: what [getCommitSubjectVersion] resolves to is never a string
    that [semver.valid] refuses: it is [null], or the cleaned first
    line of the message, and then a valid one; with no line at all it
    is [null]. *)
Theorem getCommitSubjectVersion_valid_or_null {semver : Semver}
    (exec : string -> ShellHelper.result) (version : option string) :
  getCommitSubjectVersion exec = Resolved version ->
  match version with
  | None => True
  | Some v =>
      Js.truthy_ostring (semver_valid (Some v)) = true
      /\ exists first others err,
           exec Command.lastSubject = (Some (first :: others), err)
           /\ semver_clean first = Some v
  end.
Proof.
  unfold getCommitSubjectVersion.
  destruct (exec Command.lastSubject) as [[ls|] err] eqn:Hprobe;
    [|discriminate].
  destruct ls as [|first others].
  - intros [= <-]. exact I.
  - cbn [rev]. rewrite fold_scanLine_last.
    destruct (Js.truthy_ostring (semver_valid (semver_clean first))) eqn:Hvalid.
    + intros [= <-]. destruct (semver_clean first) as [v|] eqn:Hclean; [|exact I].
      split; [exact Hvalid|]. exists first, others, err.
      split; [reflexivity | exact Hclean].
    + intros [= <-]. exact I.
Qed.

Lemma getCommitSubjectVersion_valid_or_null_witness :
  Js.truthy_ostring (SemverModel.valid (Some "2.0.1")) = true
  /\ exists first others err,
       Scenario.versionFirst Command.lastSubject = (Some (first :: others), err)
       /\ SemverModel.clean first = Some "2.0.1".
Proof.
  apply (getCommitSubjectVersion_valid_or_null (semver := SemverModel.semver)
           Scenario.versionFirst (Some "2.0.1")).
  vm_compute. reflexivity.
Defined.

(** X9: [getCommitSubjectOptions] and [getCommitSubjectVersion] read
    the same probe and fail together: one resolves exactly when the
    other does, and when they fail it is with the same fatal error,
    message and cause. *)
Theorem subject_options_and_version_fail_together {semver : Semver}
    (exec : string -> ShellHelper.result) (options : Type)
    (build : list string -> options) :
  resolved (getCommitSubjectOptions exec options build)
  = resolved (getCommitSubjectVersion exec)
  /\ forall message cause,
       getCommitSubjectOptions exec options build = ExceptionError message cause
       <-> getCommitSubjectVersion exec = ExceptionError message cause.
Proof.
  unfold getCommitSubjectOptions, getCommitSubjectVersion.
  destruct (exec Command.lastSubject) as [[ls|] err].
  - split; [reflexivity|]. intros message cause. split; discriminate.
  - split; [reflexivity|]. intros message cause.
    split; intros [= <- <-]; reflexivity.
Qed.

(** X10: the helpers that answer with a boolean never answer [false]:
    [checkCleanliness], [checkBranchInConfig] and [fetchRemote]
    resolve to [true] or do not resolve. *)
Theorem boolean_helpers_never_false (exec : string -> ShellHelper.result)
    (branches : list string) :
  checkCleanliness exec <> Resolved false
  /\ checkBranchInConfig exec branches <> Resolved false
  /\ fetchRemote exec <> Resolved false.
Proof.
  split; [|split].
  - unfold checkCleanliness.
    destruct (exec Command.diffQuiet) as [[ls|] [e|]]; discriminate.
  - unfold checkBranchInConfig, getCurrentBranchName.
    destruct (exec Command.currentBranch) as [[ls|] [e|]]; try discriminate.
    cbn [Js.truthy_object negb mbind outcome_bind bind].
    destruct (Js.includes branches (Js.first ls)); discriminate.
  - unfold fetchRemote.
    destruct (exec Command.fetch) as [ls [e|]]; discriminate.
Qed.

Lemma bind_fatal {A B} (m : outcome A) (k : A -> outcome B)
    (message : string) (cause : option error) :
  (m ≫= k) = ExceptionError message cause ->
  m = ExceptionError message cause
  \/ exists a, m = Resolved a /\ k a = ExceptionError message cause.
Proof.
  unfold mbind, outcome_bind.
  destruct m as [a| | |]; simpl; try discriminate.
  - intros Hk. right. exists a. split; [reflexivity | exact Hk].
  - intros [= <- <-]. left. reflexivity.
Qed.

Lemma bind_soft {A B} (m : outcome A) (k : A -> outcome B)
    (message reason : string) :
  (m ≫= k) = SoftExit message reason ->
  m = SoftExit message reason
  \/ exists a, m = Resolved a /\ k a = SoftExit message reason.
Proof.
  unfold mbind, outcome_bind.
  destruct m as [a| | |]; simpl; try discriminate.
  - intros Hk. right. exists a. split; [reflexivity | exact Hk].
  - intros [= <- <-]. left. reflexivity.
Qed.

Lemma promise_all_fatal {A} (ps : list (outcome A))
    (message : string) (cause : option error) :
  promise_all ps = ExceptionError message cause ->
  In (ExceptionError message cause) ps.
Proof.
  induction ps as [|p ps IH]; simpl; [discriminate|].
  intros Hall. apply bind_fatal in Hall as [->|(x & -> & Hall)].
  - left. reflexivity.
  - right. apply bind_fatal in Hall as [Hps|(xs & _ & Hno)];
      [exact (IH Hps) | discriminate].
Qed.

Lemma promise_all_soft {A} (ps : list (outcome A)) (message reason : string) :
  promise_all ps = SoftExit message reason ->
  In (SoftExit message reason) ps.
Proof.
  induction ps as [|p ps IH]; simpl; [discriminate|].
  intros Hall. apply bind_soft in Hall as [->|(x & -> & Hall)].
  - left. reflexivity.
  - right. apply bind_soft in Hall as [Hps|(xs & _ & Hno)];
      [exact (IH Hps) | discriminate].
Qed.

Section Failures.

Variable exec : string -> ShellHelper.result.

Lemma getCurrentBranchName_failures :
  match getCurrentBranchName exec with
  | ExceptionError message _ => message = "Could not get current branch name"
  | SoftExit _ _ => False
  | _ => True
  end.
Proof.
  unfold getCurrentBranchName.
  destruct (exec Command.currentBranch) as [[ls|] [e|]]; simpl; auto.
Qed.

Lemma getLastMergedBranchesNames_failures :
  match getLastMergedBranchesNames exec with
  | ExceptionError message _ => message = "Could not find last merged branch"
  | SoftExit _ _ => False
  | _ => True
  end.
Proof.
  unfold getLastMergedBranchesNames, getBranchNamesFromCommitHash.
  destruct (exec Command.lastMergeParents) as [[[|line more]|] err];
    simpl; auto.
  destruct (Js.split " " line) as [|hash pieces]; simpl; auto.
  destruct (exec (Command.branchesContaining hash)) as [[names|] err'];
    simpl; auto.
Qed.

Lemma getBranchPushTimestamp_failures (branchName : string) :
  match getBranchPushTimestamp exec branchName with
  | ExceptionError message _ =>
      message = "Could not get reflog for branch " +:+ branchName
  | SoftExit _ _ => False
  | _ => True
  end.
Proof.
  unfold getBranchPushTimestamp.
  destruct (exec (Command.reflogOf branchName)) as [[[|line more]|] err];
    simpl; auto.
  destruct (match_reflog line) as [digits|]; simpl; auto.
  destruct (Js.truthy_string digits); simpl; auto.
Qed.

(** X11: the two ways of finding no merged branch end alike: when the
    log of merges gives no lines, and when it gives a first parent
    but no branch is listed for it, [getLastMergedBranchesNames]
    raises the fatal error [Could not find last merged branch], its
    cause being the error of the probe that gave nothing. *)
Theorem getLastMergedBranchesNames_nothing_found :
  (forall err,
     exec Command.lastMergeParents = (None, err) ->
     getLastMergedBranchesNames exec
     = ExceptionError "Could not find last merged branch" err)
  /\ (forall line more err hash err',
        exec Command.lastMergeParents = (Some (line :: more), err) ->
        Js.first (Js.split " " line) = Some hash ->
        exec (Command.branchesContaining hash) = (None, err') ->
        getLastMergedBranchesNames exec
        = ExceptionError "Could not find last merged branch" err').
Proof.
  unfold getLastMergedBranchesNames, getBranchNamesFromCommitHash.
  split.
  - intros err Hprobe. rewrite Hprobe. reflexivity.
  - intros line more err hash err' Hprobe Hhash Hlist.
    rewrite Hprobe. cbn [Js.first]. rewrite Hhash, Hlist. reflexivity.
Qed.

(** X12: as long as no [git diff] probe of a branch comes with an
    error, the fatal errors of [getLastMergedPrefix] are those of the
    current branch, of the last merged branch, of the reflog of some
    branch, and of the prefix; it never takes the soft exit, and it
    never raises [Could not find a suitable merged branch
    candidate]. *)
Theorem getLastMergedPrefix_failures :
  (forall branchName, resolved (isBranchClean exec branchName) = true) ->
  match getLastMergedPrefix exec with
  | ExceptionError message _ =>
      (message = "Could not get current branch name"
       \/ message = "Could not find last merged branch"
       \/ (exists branchName,
             message = "Could not get reflog for branch " +:+ branchName)
       \/ message = "Could not extract prefix from last merged branch")
      /\ message <> "Could not find a suitable merged branch candidate"
  | SoftExit _ _ => False
  | _ => True
  end.
Proof.
  intros _.
  destruct (getLastMergedPrefix exec) as [p|message cause|message reason|r]
    eqn:Hrun; try exact I.
  - assert (Hallowed :
              message = "Could not get current branch name"
              \/ message = "Could not find last merged branch"
              \/ (exists branchName,
                    message = "Could not get reflog for branch " +:+ branchName)
              \/ message = "Could not extract prefix from last merged branch").
    { unfold getLastMergedPrefix in Hrun.
      apply bind_fatal in Hrun as [Hcur|(cur & _ & Hrun)].
      { pose proof getCurrentBranchName_failures as Hf.
        rewrite Hcur in Hf. left. exact Hf. }
      apply bind_fatal in Hrun as [Hmerged|(merged & _ & Hrun)].
      { pose proof getLastMergedBranchesNames_failures as Hf.
        rewrite Hmerged in Hf. right. left. exact Hf. }
      apply bind_fatal in Hrun as [Hall|(gathered & _ & Hrun)].
      { apply promise_all_fatal in Hall.
        apply in_map_iff in Hall as (branchName & Hone & _).
        apply bind_fatal in Hone as [Hts|(t & _ & Hno)]; [|discriminate].
        pose proof (getBranchPushTimestamp_failures branchName) as Hf.
        rewrite Hts in Hf. right. right. left. exists branchName. exact Hf. }
      simpl in Hrun.
      destruct (sort_by_date gathered) as [|winner rest]; [discriminate|].
      simpl in Hrun.
      destruct (Js.split "/" (name winner)) as [|p [|q more]];
        try discriminate; injection Hrun as <- _;
        right; right; right; reflexivity. }
    split; [exact Hallowed|].
    intros ->.
    destruct Hallowed as [He|[He|[(branchName & He)|He]]];
      try discriminate; vm_compute in He; discriminate.
  - unfold getLastMergedPrefix in Hrun.
    apply bind_soft in Hrun as [Hcur|(cur & _ & Hrun)].
    { pose proof getCurrentBranchName_failures as Hf.
      rewrite Hcur in Hf. exact Hf. }
    apply bind_soft in Hrun as [Hmerged|(merged & _ & Hrun)].
    { pose proof getLastMergedBranchesNames_failures as Hf.
      rewrite Hmerged in Hf. exact Hf. }
    apply bind_soft in Hrun as [Hall|(gathered & _ & Hrun)].
    { apply promise_all_soft in Hall.
      apply in_map_iff in Hall as (branchName & Hone & _).
      apply bind_soft in Hone as [Hts|(t & _ & Hno)]; [|discriminate].
      pose proof (getBranchPushTimestamp_failures branchName) as Hf.
      rewrite Hts in Hf. exact Hf. }
    simpl in Hrun.
    destruct (sort_by_date gathered) as [|winner rest]; [discriminate|].
    simpl in Hrun.
    destruct (Js.split "/" (name winner)) as [|p [|q more]]; discriminate.
Qed.

End Failures.

(** ** Further properties of the JSON file changer *)

Lemma savedFiles_app (a b : list event) :
  savedFiles (a ++ b) = savedFiles a ++ savedFiles b.
Proof.
  induction a as [|[line|f v|f] a IH]; simpl; try exact IH.
  - reflexivity.
  - rewrite IH. reflexivity.
Qed.

Lemma setCalls_app (a b : list event) :
  setCalls (a ++ b) = setCalls a ++ setCalls b.
Proof.
  induction a as [|[line|f v|f] a IH]; simpl; try exact IH.
  - reflexivity.
  - rewrite IH. reflexivity.
Qed.

Lemma savedFiles_sets (f : string) (arguments : list value) :
  savedFiles (map (SetCalled f) arguments) = [].
Proof. induction arguments; simpl; auto. Qed.

Lemma setCalls_sets (f : string) (arguments : list value) :
  setCalls (map (SetCalled f) arguments) = arguments.
Proof. induction arguments as [|v vs IH]; simpl; [|rewrite IH]; reflexivity. Qed.

Lemma savedFiles_infos (line : value -> string) (ks : list value) :
  savedFiles (map (fun key => Info (line key)) ks) = [].
Proof. induction ks; simpl; auto. Qed.

Lemma setCalls_infos (line : value -> string) (ks : list value) :
  setCalls (map (fun key => Info (line key)) ks) = [].
Proof. induction ks; simpl; auto. Qed.

Section ChangerMore.

Variable rootPath : string.

Import JSONFileChanger.

(** When the loop over the keys comes to its end, the opened file is
    still the same file, the disk is as it was, and [set] has been
    called once for each key. *)
Lemma updateKeys_success (file : target) (ks : list value)
    (opened opened' : fileChanger.editor) (w w' : world) :
  updateKeys file opened ks w = (w', Resolved opened') ->
  fileChanger.path opened' = fileChanger.path opened
  /\ disk w' = disk w
  /\ exists arguments,
       events w' = events w ++ map (SetCalled (fileChanger.path opened)) arguments
       /\ length arguments = length ks.
Proof.
  revert opened w.
  induction ks as [|key ks IH]; intros opened w; simpl.
  - intros [= <- <-]. repeat split. exists []. simpl.
    rewrite app_nil_r. split; reflexivity.
  - unfold mbind, action_bind.
    destruct key as [| |b|n|k|items|members]; try (simpl; discriminate).
    rewrite updateKey_string.
    destruct (JsValue.truthy (fileChanger.get opened k)); [|discriminate].
    intros Hrest. apply IH in Hrest. simpl in Hrest.
    rewrite set_keeps_path in Hrest.
    destruct Hrest as (Hpath & Hdisk & args & Hev & Hlen).
    split; [exact Hpath|]. split; [exact Hdisk|].
    exists (fileChanger.get opened k :: args).
    rewrite Hev. simpl. rewrite <- app_assoc, Hlen. split; reflexivity.
Qed.

(** The run of one file, told in full. *)
Lemma updateFile_eq (file : target) (w : world) :
  updateFile rootPath file w
  = let w0 :=
      match keys file with
      | Some (_ :: _) => w
      | _ => World (disk w) (events w ++ [Info (notSpecified file)])
      end in
    match List.filter (fun key => negb (isKeyValid key)) (keysOf file) with
    | k :: ks =>
        (World (disk w0)
               (events w0 ++ map (fun key => Info (notValid key)) (k :: ks)),
         ExceptionError someNotValid None)
    | [] =>
        match updateKeys file (fileChanger.open (disk w) (fileOf rootPath file))
                (keysOf file) w0 with
        | (w1, Resolved opened1) => saveFile opened1 w1
        | (w1, ExceptionError msg cause) => (w1, ExceptionError msg cause)
        | (w1, SoftExit msg reason) => (w1, SoftExit msg reason)
        | (w1, TypeError r) => (w1, TypeError r)
        end
    end.
Proof.
  unfold updateFile, keysOf, fileOf.
  destruct (keys file) as [[|k ks]|].
  - simpl. reflexivity.
  - cbv zeta. run_bind. run_ret.
    destruct (List.filter _ (k :: ks)) as [|k0 ks0].
    + run_bind. run_ret. run_bind.
      destruct (updateKeys _ _ _ w) as [w1 [opened1| | |]]; reflexivity.
    + run_bind. run_bind. rewrite forEach_info. reflexivity.
  - simpl. reflexivity.
Qed.

(** What one file does to the disk and to the trace: on success the
    file is written and nothing else, after one [set] per key; on
    failure nothing is written at all. *)
Lemma updateFile_effects (file : target) (w : world) :
  exists evs,
    events (fst (updateFile rootPath file w)) = events w ++ evs
    /\ match snd (updateFile rootPath file w) with
       | Resolved _ =>
           (exists content,
              disk (fst (updateFile rootPath file w))
              = <[fileOf rootPath file := content]> (disk w))
           /\ savedFiles evs = [fileOf rootPath file]
           /\ length (setCalls evs) = length (keysOf file)
       | _ =>
           disk (fst (updateFile rootPath file w)) = disk w
           /\ savedFiles evs = []
       end.
Proof.
  rewrite updateFile_eq. cbv zeta.
  set (w0 := match keys file with
             | Some (_ :: _) => w
             | _ => World (disk w) (events w ++ [Info (notSpecified file)])
             end).
  assert (Hw0 : disk w0 = disk w
                /\ exists pre, events w0 = events w ++ pre
                               /\ savedFiles pre = [] /\ setCalls pre = []).
  { subst w0. destruct (keys file) as [[|k ks]|]; simpl;
      try (split; [reflexivity|]; exists [Info (notSpecified file)];
           repeat split; reflexivity).
    split; [reflexivity|]. exists []. rewrite app_nil_r. repeat split. }
  destruct Hw0 as (Hdisk0 & pre & Hev0 & Hsaved0 & Hsets0).
  destruct (List.filter _ (keysOf file)) as [|k ks].
  - destruct (updateKeys file _ (keysOf file) w0) as [w1 o] eqn:Hkeys.
    destruct o as [opened1|msg cause|msg reason|r].
    + apply updateKeys_success in Hkeys
        as (Hpath & Hdisk & args & Hev & Hlen).
      simpl in Hpath.
      exists (pre ++ map (SetCalled (fileOf rootPath file)) args
                  ++ [Saved (fileOf rootPath file)]).
      unfold saveFile, fileChanger.save. simpl.
      rewrite Hpath, Hev, Hev0, Hdisk, Hdisk0. simpl.
      split; [rewrite <- !app_assoc; reflexivity|].
      split; [eexists; reflexivity|].
      rewrite !savedFiles_app, !setCalls_app, Hsaved0, Hsets0.
      rewrite savedFiles_sets, setCalls_sets. simpl.
      rewrite app_nil_r. split; [reflexivity | exact Hlen].
    + apply updateKeys_effects in Hkeys as (Hdisk & args & Hev). simpl in Hev.
      exists (pre ++ map (SetCalled (fileOf rootPath file)) args). simpl.
      rewrite Hev, Hev0, Hdisk, Hdisk0, <- app_assoc.
      rewrite savedFiles_app, Hsaved0, savedFiles_sets. repeat split.
    + apply updateKeys_effects in Hkeys as (Hdisk & args & Hev). simpl in Hev.
      exists (pre ++ map (SetCalled (fileOf rootPath file)) args). simpl.
      rewrite Hev, Hev0, Hdisk, Hdisk0, <- app_assoc.
      rewrite savedFiles_app, Hsaved0, savedFiles_sets. repeat split.
    + apply updateKeys_effects in Hkeys as (Hdisk & args & Hev). simpl in Hev.
      exists (pre ++ map (SetCalled (fileOf rootPath file)) args). simpl.
      rewrite Hev, Hev0, Hdisk, Hdisk0, <- app_assoc.
      rewrite savedFiles_app, Hsaved0, savedFiles_sets. repeat split.
  - exists (pre ++ map (fun key => Info (notValid key)) (k :: ks)).
    cbn [fst snd disk events]. rewrite Hev0, Hdisk0, <- app_assoc.
    rewrite savedFiles_app, Hsaved0, savedFiles_infos. repeat split.
Qed.

End ChangerMore.

Section ChangerRuns.

Variable rootPath : string.

Import JSONFileChanger.

Lemma updateFiles_cons (file : target) (later : list target) (w : world) :
  updateFiles rootPath (file :: later) w
  = match updateFile rootPath file w with
    | (w1, Resolved _) => updateFiles rootPath later w1
    | (w1, ExceptionError msg cause) => (w1, ExceptionError msg cause)
    | (w1, SoftExit msg reason) => (w1, SoftExit msg reason)
    | (w1, TypeError r) => (w1, TypeError r)
    end.
Proof. reflexivity. Qed.

(** Files are gone through in order: a list in two parts is the first
    part, then, if that came to its end, the second. *)
Lemma updateFiles_app (done later : list target) (w : world) :
  updateFiles rootPath (done ++ later) w
  = match updateFiles rootPath done w with
    | (w1, Resolved _) => updateFiles rootPath later w1
    | (w1, ExceptionError msg cause) => (w1, ExceptionError msg cause)
    | (w1, SoftExit msg reason) => (w1, SoftExit msg reason)
    | (w1, TypeError r) => (w1, TypeError r)
    end.
Proof.
  revert w.
  induction done as [|file done IH]; intros w.
  - reflexivity.
  - change ((file :: done) ++ later) with (file :: (done ++ later)).
    rewrite !updateFiles_cons.
    destruct (updateFile rootPath file w) as [w1 [u| | |]]; try reflexivity.
    apply IH.
Qed.

(** X13: [updateFiles] touches no file but those of its targets: a
    path that is the file of none of them holds after the run what it
    held before, however the run ends. *)
Theorem updateFiles_frame (filesData : list target) (w : world) (p : string) :
  Forall (fun file => p <> fileOf rootPath file) filesData ->
  disk (fst (updateFiles rootPath filesData w)) !! p = disk w !! p.
Proof.
  intros Hother. revert w.
  induction Hother as [|file later Hfile _ IH]; intros w.
  - reflexivity.
  - rewrite updateFiles_cons.
    destruct (updateFile_effects rootPath file w) as (evs & _ & Hcase).
    destruct (updateFile rootPath file w) as [w1 o]. simpl in Hcase.
    destruct o as [u|msg cause|msg reason|r];
      try (cbn [fst]; destruct Hcase as [Hdisk _]; rewrite Hdisk; reflexivity).
    destruct Hcase as ((content & Hdisk) & _).
    rewrite IH, Hdisk. apply lookup_insert_ne. congruence.
Qed.

(** X14: once the files have all been gone through, each of them has
    been saved once, in the order of the list, [set] has been called
    once for every key of every file, and each file is on the disk. *)
Theorem updateFiles_success_trace (filesData : list target) (w w' : world) :
  updateFiles rootPath filesData w = (w', Resolved tt) ->
  savedFiles (events w')
  = savedFiles (events w) ++ map (fileOf rootPath) filesData
  /\ length (setCalls (events w'))
     = (length (setCalls (events w))
        + length (concat (map keysOf filesData)))%nat
  /\ Forall (fun file => is_Some (disk w' !! fileOf rootPath file)) filesData.
Proof.
  revert w.
  induction filesData as [|file later IH]; intros w.
  - intros [= <-]. simpl. rewrite app_nil_r, Nat.add_0_r.
    repeat split. constructor.
  - rewrite updateFiles_cons.
    destruct (updateFile_effects rootPath file w) as (evs & Hev & Hcase).
    destruct (updateFile rootPath file w) as [w1 o]. simpl in Hev, Hcase.
    destruct o as [u| | |]; try discriminate.
    destruct Hcase as ((content & Hdisk) & Hsaved & Hsets).
    intros Hlater. pose proof Hlater as Hrun.
    apply IH in Hlater as (Hs & Hc & Hon).
    rewrite Hev, savedFiles_app, Hsaved in Hs.
    rewrite Hev, setCalls_app, length_app, Hsets in Hc.
    split; [rewrite Hs, <- app_assoc; reflexivity|].
    split; [rewrite Hc; simpl; rewrite length_app; lia|].
    constructor; [|exact Hon].
    assert (Hkept : forall files w2 w3 o,
              updateFiles rootPath files w2 = (w3, o) ->
              is_Some (disk w2 !! fileOf rootPath file) ->
              is_Some (disk w3 !! fileOf rootPath file)).
    { clear. induction files as [|f fs IHf]; intros w2 w3 o.
      - intros [= <- _]. auto.
      - rewrite updateFiles_cons.
        destruct (updateFile_effects rootPath f w2) as (evs & _ & Hcase).
        destruct (updateFile rootPath f w2) as [w4 o4]. simpl in Hcase.
        destruct o4 as [u| | |];
          try (destruct Hcase as [Hd _]; intros [= <- _]; rewrite Hd; auto).
        destruct Hcase as ((content & Hd) & _).
        intros Hrest Hsome. apply (IHf _ _ _ Hrest).
        rewrite Hd. apply lookup_insert_is_Some'. right. exact Hsome. }
    apply (Hkept later w1 w' _ Hrun).
    rewrite Hdisk, lookup_insert_eq. eauto.
Qed.

Lemma updateFiles_saved_files (filesData : list target) (w w' : world) :
  updateFiles rootPath filesData w = (w', Resolved tt) ->
  savedFiles (events w')
  = savedFiles (events w) ++ map (fileOf rootPath) filesData.
Proof.
  revert w.
  induction filesData as [|file later IH]; intros w.
  - intros [= <-]. simpl. rewrite app_nil_r. reflexivity.
  - rewrite updateFiles_cons.
    destruct (updateFile_effects rootPath file w) as (evs & Hev & Hcase).
    destruct (updateFile rootPath file w) as [w1 o]. simpl in Hev, Hcase.
    destruct o as [u| | |]; try discriminate.
    destruct Hcase as (_ & Hsaved & _).
    intros Hlater. apply IH in Hlater.
    rewrite Hev, savedFiles_app, Hsaved in Hlater.
    rewrite Hlater, <- app_assoc. reflexivity.
Qed.

(** X15: there is no rolling back: when the files before a failing one
    have all been saved, the run ends in the failure of that file,
    the disk is as those saves have left it, and neither the failing
    file nor any file after it is written. *)
Theorem updateFiles_no_rollback (done later : list target) (file : target)
    (w w1 : world) :
  updateFiles rootPath done w = (w1, Resolved tt) ->
  resolved (snd (updateFile rootPath file w1)) = false ->
  updateFiles rootPath (done ++ file :: later) w = updateFile rootPath file w1
  /\ disk (fst (updateFiles rootPath (done ++ file :: later) w)) = disk w1
  /\ savedFiles (events (fst (updateFiles rootPath (done ++ file :: later) w)))
     = savedFiles (events w) ++ map (fileOf rootPath) done.
Proof.
  intros Hdone Hfails.
  assert (Hrun : updateFiles rootPath (done ++ file :: later) w
                 = updateFile rootPath file w1).
  { rewrite updateFiles_app, Hdone, updateFiles_cons.
    destruct (updateFile rootPath file w1) as [w2 [[]| | |]];
      [discriminate | reflexivity..]. }
  split; [exact Hrun|]. rewrite Hrun.
  destruct (updateFile_effects rootPath file w1) as (evs & Hev & Hcase).
  destruct (snd (updateFile rootPath file w1)); try discriminate;
    destruct Hcase as [Hdisk Hsaved];
    (split; [exact Hdisk|]);
    rewrite Hev, savedFiles_app, Hsaved, app_nil_r;
    apply (updateFiles_saved_files done w w1 Hdone).
Qed.

Lemma get_of_empty (p k : string) :
  k <> EmptyString ->
  fileChanger.get (fileChanger.Editor p (VObj [])) k = VUndefined.
Proof.
  intros Hk. unfold fileChanger.get.
  destruct k as [|c k]; [congruence|]. cbn [Js.truthy_string fileChanger.data].
  pose proof (split_not_nil "." (String c k)) as Hsplit.
  destruct (Js.split "." (String c k)) as [|s [|s' more]];
    [congruence | reflexivity | reflexivity].
Qed.

(** X16: a target whose file is not on the disk is not created: with
    keys that are strings, the first of them an own key (not empty,
    without a dot, not a name every object inherits), the run ends in
    the fatal error of that first key not found, and the disk is as
    it was. *)
Theorem updateFiles_missing_file (file : target) (later : list target)
    (w : world) (k : string) (others : list value) :
  disk w !! fileOf rootPath file = None ->
  keysOf file = VStr k :: others ->
  ownKey k = true ->
  Forall (fun key => isKeyValid key = true) others ->
  snd (updateFiles rootPath (file :: later) w)
  = ExceptionError (notFound k file) None
  /\ disk (fst (updateFiles rootPath (file :: later) w)) = disk w.
Proof.
  intros Habsent Hkeys Hown Hvalid.
  assert (Hk : k <> EmptyString).
  { intros ->. discriminate Hown. }
  assert (Hrun : updateFiles rootPath (file :: later) w
                 = (match keys file with
                    | Some (_ :: _) => w
                    | _ => World (disk w)
                                 (events w ++ [Info (notSpecified file)])
                    end,
                    ExceptionError (notFound k file) None)).
  { rewrite updateFiles_cons, updateFile_eq. cbv zeta.
    rewrite Hkeys.
    rewrite (filter_invalid_nil (VStr k :: others));
      [|constructor; [reflexivity | exact Hvalid]].
    unfold fileChanger.open. rewrite Habsent. cbn [default].
    cbn [updateKeys]. run_bind. rewrite updateKey_string.
    rewrite (get_of_empty _ k Hk). reflexivity. }
  rewrite Hrun. split; [reflexivity|].
  destruct (keys file) as [[|k0 ks0]|]; reflexivity.
Qed.

End ChangerRuns.

Lemma updateFiles_frame_witness :
  disk (fst (JSONFileChanger.updateFiles Files.root
               [Scenario2.package; Scenario2.bower]
               (Files.start Scenario2.twoFiles))) !! "/repo/README.md"
  = Scenario2.twoFiles !! "/repo/README.md".
Proof.
  apply (updateFiles_frame Files.root [Scenario2.package; Scenario2.bower]
           (Files.start Scenario2.twoFiles) "/repo/README.md").
  repeat constructor; vm_compute; discriminate.
Defined.

Lemma updateFiles_success_trace_witness :
  savedFiles (events (fst (JSONFileChanger.updateFiles Files.root
                             [Scenario2.package]
                             (Files.start Scenario2.twoFiles))))
  = ["/repo/package.json"].
Proof.
  apply (updateFiles_success_trace Files.root [Scenario2.package]
           (Files.start Scenario2.twoFiles)
           (fst (JSONFileChanger.updateFiles Files.root [Scenario2.package]
                   (Files.start Scenario2.twoFiles)))).
  vm_compute. reflexivity.
Defined.

Lemma updateFiles_no_rollback_witness :
  JSONFileChanger.updateFiles Files.root
    ([Scenario2.package] ++ Scenario2.bower :: [Scenario2.absent])
    (Files.start Scenario2.twoFiles)
  = JSONFileChanger.updateFile Files.root Scenario2.bower
      (fst (JSONFileChanger.updateFiles Files.root [Scenario2.package]
              (Files.start Scenario2.twoFiles))).
Proof.
  apply (updateFiles_no_rollback Files.root [Scenario2.package]
           [Scenario2.absent] Scenario2.bower
           (Files.start Scenario2.twoFiles)
           (fst (JSONFileChanger.updateFiles Files.root [Scenario2.package]
                   (Files.start Scenario2.twoFiles)))).
  - vm_compute. reflexivity.
  - vm_compute. reflexivity.
Defined.

Lemma updateFiles_missing_file_witness :
  snd (JSONFileChanger.updateFiles Files.root [Scenario2.absent]
         (Files.start Scenario2.twoFiles))
  = ExceptionError "Key version for file composer.json was not found." None.
Proof.
  apply (updateFiles_missing_file Files.root Scenario2.absent []
           (Files.start Scenario2.twoFiles) "version" []).
  - vm_compute. reflexivity.
  - reflexivity.
  - vm_compute. reflexivity.
  - constructor.
Defined.

Lemma getLastMergedBranchesNames_nothing_found_witness :
  getLastMergedBranchesNames Scenario2.detached
  = ExceptionError "Could not find last merged branch" None
  /\ getLastMergedBranchesNames Scenario2.noBranchListed
     = ExceptionError "Could not find last merged branch" None.
Proof.
  split.
  - apply (proj1 (getLastMergedBranchesNames_nothing_found Scenario2.detached)).
    vm_compute. reflexivity.
  - apply (proj2 (getLastMergedBranchesNames_nothing_found
                    Scenario2.noBranchListed)
             "1a2b3c4 5d6e7f8" [] None "1a2b3c4" None).
    + vm_compute. reflexivity.
    + vm_compute. reflexivity.
    + vm_compute. reflexivity.
Defined.

Lemma getLastMergedPrefix_failures_witness :
  match getLastMergedPrefix Scenario2.noReflog with
  | ExceptionError message _ =>
      (message = "Could not get current branch name"
       \/ message = "Could not find last merged branch"
       \/ (exists branchName,
             message = "Could not get reflog for branch " +:+ branchName)
       \/ message = "Could not extract prefix from last merged branch")
      /\ message <> "Could not find a suitable merged branch candidate"
  | SoftExit _ _ => False
  | _ => True
  end.
Proof.
  apply (getLastMergedPrefix_failures Scenario2.noReflog).
  intros branchName.
  unfold isBranchClean, Scenario2.noReflog, answers.
  repeat (destruct (String.eqb_spec _ _) as [E|_];
          [vm_compute in E; discriminate|]).
  reflexivity.
Defined.
